(** * Lutris Battle.net runner: product database scanner and runner life cycle

    A shallow embedding of
    - [lutris/util/bnet.py] ([regex_product_db], [products_parse], [read_config]),
    - the parts of [lutris/runners/winebattlenet.py] that locate and create the
      Wine prefix, shut Battle.net down before a launch and build the launch
      command,
    - [Runner.is_installed] of [lutris/runners/runner.py],
    followed by the properties of the specification that were checked on it. *)

From Stdlib Require Import NArith Lia List.
From Stdlib.Strings Require Import Ascii String Byte.
From stdpp Require Import base option list gmap strings fin_maps sorting.

Set Default Proof Using "Type".

(** ** Python values, dictionaries of options *)

(** The values found in configuration dictionaries and returned by the runner
    methods. *)
Inductive pyval : Type :=
  | VNone
  | VBool (b : bool)
  | VStr (s : string).

#[global] Instance pyval_eq_dec : EqDecision pyval.
Proof. solve_decision. Defined.

(** Truth value of an object in a condition ([if x], [not x], [x or y]). *)
Definition truthy (v : pyval) : bool :=
  match v with
  | VNone => false
  | VBool b => b
  | VStr s => negb (String.eqb s "")
  end.

(** [a or b] *)
Definition py_or (a b : pyval) : pyval := if truthy a then a else b.

(** [d.get(k)] *)
Definition dict_get (d : gmap string pyval) (k : string) : pyval :=
  default VNone (d !! k).

(** ** Exceptions *)

(** The exceptions the modelled code can raise. *)
Inductive exn : Type :=
  | IndexError
  | UnicodeDecodeError
  | KeyError (key : pyval)
  | TypeError
  | ValueError
  | FileNotFoundError
  | IsADirectoryError
  | NotADirectoryError
  | FileExistsError
  | PermissionError
  | NotImplementedError.

(** A computation that returns a value or raises. *)
Inductive result (A : Type) : Type :=
  | Ok (a : A)
  | Raise (e : exn).
Arguments Ok {A} a.
Arguments Raise {A} e.

#[global] Instance result_bind : MBind result := λ A B k r,
  match r with
  | Ok a => k a
  | Raise e => Raise e
  end.

(** ** Bytes and text

    A [bytes] object is a list of bytes.  A Python [str] is represented by its
    UTF-8 encoding, held in a Rocq [string]: UTF-8 is one-to-one on the strings
    that [bytes.decode] can return, so two [str] are equal exactly when their
    representations are. *)

Abbreviation bytes := (list byte).

(** [buf[i]] : the byte as an integer, [IndexError] out of range. *)
Definition index (buf : bytes) (i : nat) : result nat :=
  match buf !! i with
  | Some b => Ok (N.to_nat (Byte.to_N b))
  | None => Raise IndexError
  end.

(** [buf[a:b]] for [0 <= a]: slicing clamps to the end of the buffer and never
    raises. *)
Definition slice (buf : bytes) (a b : nat) : bytes :=
  take (b - a) (drop a buf).

Definition byte_in (lo hi : N) (b : byte) : bool :=
  (N.leb lo (Byte.to_N b) && N.leb (Byte.to_N b) hi)%bool.

(** A continuation byte [10xxxxxx]. *)
Definition cont (b : byte) : bool := byte_in 128 191 b.

(** Strict UTF-8, as [bytes.decode()] checks it: shortest encodings only, no
    surrogates, nothing above U+10FFFF, no sequence cut short. *)
Fixpoint utf8_valid (bs : bytes) : bool :=
  match bs with
  | [] => true
  | b0 :: tl =>
    if byte_in 0 127 b0 then utf8_valid tl
    else match tl with
      | [] => false
      | b1 :: tl1 =>
        if byte_in 194 223 b0 then cont b1 && utf8_valid tl1
        else match tl1 with
          | [] => false
          | b2 :: tl2 =>
            if byte_in 224 224 b0 then byte_in 160 191 b1 && cont b2 && utf8_valid tl2
            else if byte_in 237 237 b0 then byte_in 128 159 b1 && cont b2 && utf8_valid tl2
            else if byte_in 225 239 b0 then cont b1 && cont b2 && utf8_valid tl2
            else match tl2 with
              | [] => false
              | b3 :: tl3 =>
                if byte_in 240 240 b0
                then byte_in 144 191 b1 && cont b2 && cont b3 && utf8_valid tl3
                else if byte_in 241 243 b0
                then cont b1 && cont b2 && cont b3 && utf8_valid tl3
                else if byte_in 244 244 b0
                then byte_in 128 143 b1 && cont b2 && cont b3 && utf8_valid tl3
                else false
              end
          end
      end
  end.

(** [bs.decode()] *)
Definition decode (bs : bytes) : result string :=
  if utf8_valid bs then Ok (string_of_list_byte bs) else Raise UnicodeDecodeError.

(** ** [lutris/util/bnet.py] *)

(** One entry of the mapping [products_parse] builds:
    [{'gameid': name, 'path': path, 'code': code}]. *)
Record Product : Type := mkProduct {
  gameid : string;
  path : string;
  code : string
}.

(** [regex_product_db = re.compile(b'\x0A..\x0A')]: the pattern matched at the
    head of a buffer.  In a bytes pattern without DOTALL, [.] is any byte but
    the newline [0x0A]. *)
Definition dot (b : byte) : bool := negb (Byte.eqb b x0a).

Definition regex_product_db (b0 b1 b2 b3 : byte) : bool :=
  Byte.eqb b0 x0a && dot b1 && dot b2 && Byte.eqb b3 x0a.

(** [regex_product_db.finditer(buf)], as the list of [match_obj.start()]: the
    buffer is searched from left to right, and the search resumes right after
    the four bytes of a match.  [pos] is the offset of [buf] in the whole
    buffer. *)
Fixpoint finditer_from (pos : nat) (buf : bytes) : list nat :=
  match buf with
  | [] => []
  | b0 :: tl =>
    match tl with
    | b1 :: b2 :: b3 :: tl' =>
      if regex_product_db b0 b1 b2 b3
      then pos :: finditer_from (pos + 4) tl'
      else finditer_from (S pos) tl
    | _ => finditer_from (S pos) tl
    end
  end.

Definition finditer (buf : bytes) : list nat := finditer_from 0 buf.

(** The body of the [for match_obj in ...] loop of [products_parse], for the
    match that starts at [start]. *)
Definition products_parse_body (buf : bytes) (products : gmap string Product)
    (start : nat) : result (gmap string Product) :=
  let offset := start in
  let offset := offset + 4 in
  length ← index buf offset;
  let offset := offset + 1 in
  name ← decode (slice buf offset (offset + length));
  let offset := offset + length in
  let offset := offset + 1 in
  length ← index buf offset;
  let offset := offset + 1 in
  code ← decode (slice buf offset (offset + length));
  let offset := offset + length in
  let offset := offset + 3 in
  length ← index buf offset;
  let offset := offset + 1 in
  path ← decode (slice buf offset (offset + length));
  Ok (<[name := {| gameid := name; path := path; code := code |}]> products).

(** The loop itself: an exception leaves it at once. *)
Fixpoint products_parse_loop (buf : bytes) (matches : list nat)
    (products : gmap string Product) : result (gmap string Product) :=
  match matches with
  | [] => Ok products
  | start :: rest =>
    products ← products_parse_body buf products start;
    products_parse_loop buf rest products
  end.

(** A binary file object: its content and the read position. *)
Record FileObj : Type := mkFile {
  f_data : bytes;
  f_pos : nat
}.

(** [file.read()]: what is left after the position, which moves to the end. *)
Definition file_read (f : FileObj) : bytes * FileObj :=
  (drop (f_pos f) (f_data f), {| f_data := f_data f; f_pos := length (f_data f) |}).

(** [open(path, "rb")] on a regular file with this content. *)
Definition open_rb (data : bytes) : FileObj := {| f_data := data; f_pos := 0 |}.

Definition products_parse (file : FileObj) : result (gmap string Product) * FileObj :=
  let '(buf, file) := file_read file in
  let products := ∅ in
  (products_parse_loop buf (finditer buf) products, file).

(** ** [os.path]: the functions of [posixpath] the runner uses *)

Definition startswith_sep (s : string) : bool :=
  match s with
  | String c _ => Ascii.eqb c "/"
  | EmptyString => false
  end.

Fixpoint endswith_sep (s : string) : bool :=
  match s with
  | EmptyString => false
  | String c EmptyString => Ascii.eqb c "/"
  | String _ s' => endswith_sep s'
  end.

(** One round of the loop of [posixpath.join]. *)
Definition join_step (path b : string) : string :=
  if startswith_sep b then b
  else if String.eqb path "" || endswith_sep path then path +:+ b
  else path +:+ "/" +:+ b.

(** [os.path.join(a, *p)] *)
Definition os_path_join (a : string) (p : list string) : string :=
  fold_left join_step p a.

(** [s.rstrip('/')] and the test [head != '/' * len(head)], on the reversed
    list of characters. *)
Fixpoint lstrip_sep (cs : list ascii) : list ascii :=
  match cs with
  | c :: cs' => if Ascii.eqb c "/" then lstrip_sep cs' else cs
  | [] => []
  end.

Fixpoint drop_until_sep (cs : list ascii) : list ascii :=
  match cs with
  | c :: cs' => if Ascii.eqb c "/" then cs else drop_until_sep cs'
  | [] => []
  end.

(** [os.path.dirname(p)]: [head = p[:p.rfind('/') + 1]], with its trailing
    slashes removed unless it consists of slashes only. *)
Definition os_path_dirname (p : string) : string :=
  let head := drop_until_sep (rev (list_ascii_of_string p)) in
  match lstrip_sep head with
  | [] => string_of_list_ascii (rev head)
  | stripped => string_of_list_ascii (rev stripped)
  end.

(** ** The world the runner acts on *)

(** What a path names on disk. *)
Inductive node : Type :=
  | File (data : bytes)
  | Dir.

Inductive level : Type := DEBUG | INFO | WARNING | ERROR.

#[global] Instance level_eq_dec : EqDecision level.
Proof. solve_decision. Defined.

(** The effects of the runner that are visible from outside, in the order in
    which they happen. *)
Inductive event : Type :=
  | Log (lvl : level) (msg : string)
  | Sleep (seconds : nat)                         (* time.sleep *)
  | WineStop                                      (* wine.stop, through super() *)
  | WinePrelaunch                                 (* wine.prelaunch, through super() *)
  | KillPid (pid : option nat)                    (* system.kill_pid *)
  | Makedirs (dir : string)                       (* os.makedirs *)
  | WineCreatePrefix (prefix : string) (arch : pyval) (wine_path : string)   (* wine.create_prefix *)
  | SetupX360ce (dir : pyval).                    (* wine.setup_x360ce *)

#[global] Instance event_eq_dec : EqDecision event.
Proof. solve_decision. Defined.

Record World : Type := mkWorld {
  fs : gmap string node;
  trace : list event
}.

(** A method: it runs in a world, returns or raises, and leaves a world. *)
Definition M (A : Type) : Type := World → result A * World.

#[global] Instance M_ret : MRet M := λ A a w, (Ok a, w).
#[global] Instance M_bind : MBind M := λ A B k m w,
  match m w with
  | (Ok a, w') => k a w'
  | (Raise e, w') => (Raise e, w')
  end.

Definition raise {A : Type} (e : exn) : M A := λ w, (Raise e, w).

Definition lift {A : Type} (r : result A) : M A := λ w, (r, w).

Definition emit (ev : event) : M unit := λ w,
  (Ok (), {| fs := fs w; trace := trace w ++ [ev] |}).

(** A call that works on the disk: it returns or raises, and leaves a disk
    either way. *)
Definition update_fs (f : gmap string node → result unit * gmap string node)
    : M unit := λ w,
  ((f (fs w)).1, {| fs := (f (fs w)).2; trace := trace w |}).

(** [os.path.exists(p)], [os.path.isdir(p)] *)
Definition os_path_exists (p : string) : M bool := λ w,
  (Ok (match fs w !! p with Some _ => true | None => false end), w).

Definition os_path_isdir (p : string) : M bool := λ w,
  (Ok (match fs w !! p with Some Dir => true | _ => false end), w).

(** [open(p, "rb")] *)
Definition open_file_rb (p : string) : M FileObj := λ w,
  match fs w !! p with
  | Some (File data) => (Ok (open_rb data), w)
  | Some Dir => (Raise IsADirectoryError, w)
  | None => (Raise FileNotFoundError, w)
  end.

(** [d[k]] on a dictionary with [str] keys: [KeyError] when [k] is not a key
    (a key that is not a [str] never is). *)
Definition subscript {V : Type} (d : gmap string V) (k : pyval) : result V :=
  match k with
  | VStr s => match d !! s with Some v => Ok v | None => Raise (KeyError k) end
  | _ => Raise (KeyError k)
  end.

(** ** What the runner takes from the rest of Lutris and from the system

    [lutris.settings], the [wine] runner that [winebattlenet] extends,
    [lutris.util.system], [shlex] and the process table are not part of the
    modelled files: they are parameters of the development. *)

(** [LutrisConfig]: the cascaded dictionaries of a game. *)
Record LutrisConfig : Type := mkConfig {
  cfg_game_config : gmap string pyval;
  cfg_runner_config : gmap string pyval
}.

(** A [winebattlenet] runner object: [self.config] is a configuration or
    [None]. *)
Record winebattlenet : Type := mkRunner {
  config : option LutrisConfig
}.

(** [play()] returns [launch_info], or [{'error': ..., 'file': ...}]. *)
Record LaunchInfo : Type := mkLaunch {
  env : gmap string string;
  command : list string
}.

Inductive PlayResult : Type :=
  | Launch (launch_info : LaunchInfo)
  | PlayError (error file : string).

Record Externals : Type := mkExternals {
  (** [settings.RUNNER_DIR] *)
  RUNNER_DIR : string;
  (** [os.path.expanduser] *)
  expanduser : string → string;
  (** [self.default_config.runner_config], of [Runner.default_config] *)
  default_runner_config : gmap string pyval;
  (** [wine.get_executable()] *)
  wine_executable : string;
  (** [wine.get_env(os_env=False)] *)
  wine_env : gmap string string;
  (** [wine.create_prefix(prefix, arch, wine_path)] and [os.makedirs(dir)]:
      whether the call returns or raises, and the disk it leaves *)
  wine_create_prefix :
    string → pyval → string → gmap string node → result unit * gmap string node;
  os_makedirs : string → gmap string node → result unit * gmap string node;
  (** [wine.winepath(path, prefix=...)] *)
  winepath : string → string → string;
  (** the process table after the events so far: [system.get_pid(pattern)] and
      [Process(pid).state] *)
  get_pid : list event → string → option nat;
  process_state : list event → nat → string;
  (** [shlex.split] *)
  shlex_split : pyval → result (list string);
  (** the branch of [play] that starts the game through the Battle.net client
      (it rewrites the JSON configuration of the client); no property below
      depends on it *)
  play_through_bnet : winebattlenet → pyval → M (list string)
}.

(** [gamelist] *)
Definition gamelist : gmap string (string * string * string) :=
  <["prometheus" := ("Overwatch", "Overwatch.exe", "Pro")]>
  (<["prometheus_test" := ("Overwatch (PTR)", "Overwatch.exe", "Pro")]> ∅).

Section Runner.
Context (X : Externals).

(** *** Module-level functions of [winebattlenet.py] *)

(** [system.get_pid(pattern)] and [Process(pid).state], read from the process
    table as it is after the events so far. *)
Definition system_get_pid (pattern : string) : M (option nat) := λ w,
  (Ok (get_pid X (trace w) pattern), w).

Definition Process_state (pid : nat) : M string := λ w,
  (Ok (process_state X (trace w) pid), w).

(** [is_running()]: a defunct process does not count as running. *)
Definition is_running : M bool :=
  pid ← system_get_pid "Battle.net.exe$";
  match pid with
  | Some pid =>
    state ← Process_state pid;
    mret (negb (String.eqb state "Z"))
  | None => mret false
  end.

(** [kill()] *)
Definition kill : M unit :=
  pid ← system_get_pid "Battle.net.exe$";
  _ ← emit (KillPid pid);
  pid ← system_get_pid "Agent.exe$";
  emit (KillPid pid).

(** *** [Runner] properties ([runner.py]) *)

Definition game_config (self : winebattlenet) : gmap string pyval :=
  match config self with
  | Some c => cfg_game_config c
  | None => ∅
  end.

Definition runner_config (self : winebattlenet) : gmap string pyval :=
  match config self with
  | Some c => cfg_runner_config c
  | None => default_runner_config X
  end.

(** *** [winebattlenet] *)

Definition default_arch : string := "win32".

(** The [gameid] property. *)
Definition runner_gameid (self : winebattlenet) : pyval :=
  py_or (dict_get (game_config self) "gameid") (VStr "").

Definition get_default_prefix (arch : pyval) : string :=
  let arch := if negb (truthy arch) then VStr default_arch else arch in
  let path := "prefix" in
  let path := if decide (arch = VStr "win64") then path +:+ "64" else path in
  os_path_join (RUNNER_DIR X) ["winebattlenet"; path].

Definition create_prefix (prefix_dir : string) (arch : pyval) : M unit :=
  _ ← emit (Log DEBUG "Creating default winebattlenet prefix");
  let arch := if negb (truthy arch) then VStr default_arch else arch in
  let wine_path := wine_executable X in
  e ← os_path_exists (os_path_dirname prefix_dir);
  _ ← (if negb e
       then _ ← emit (Makedirs (os_path_dirname prefix_dir));
            update_fs (os_makedirs X (os_path_dirname prefix_dir))
       else mret ());
  _ ← emit (WineCreatePrefix prefix_dir arch wine_path);
  update_fs (wine_create_prefix X prefix_dir arch wine_path).

Definition get_or_create_default_prefix (arch : pyval) : M string :=
  let arch := if negb (truthy arch) then VStr default_arch else arch in
  let prefix := get_default_prefix arch in
  e ← os_path_exists prefix;
  _ ← (if negb e then create_prefix prefix arch else mret ());
  mret prefix.

(** The [prefix_path] property. *)
Definition prefix_path (self : winebattlenet) : M string :=
  _prefix ← (let configured := dict_get (game_config self) "prefix" in
             if truthy configured then mret configured
             else p ← get_or_create_default_prefix (dict_get (game_config self) "arch");
                  mret (VStr p));
  match _prefix with
  | VStr p => mret (expanduser X p)
  | _ => raise TypeError
  end.

(** [get_bnet_games], with [read_config] of [bnet.py]. *)
Definition read_config (product_db_path : string)
    : M (option (gmap string Product)) :=
  e ← os_path_exists product_db_path;
  if negb e then mret None else
  product_db_file ← open_file_rb product_db_path;
  config ← lift (products_parse product_db_file).1;
  match subscript config (VStr "battle.net") with
  | Raise _ =>
    _ ← emit (Log ERROR "Battle.net config %s is empty: %s");
    mret None
  | Ok _ => mret (Some config)
  end.

Definition get_bnet_games : M (option (gmap string Product)) :=
  let product_db :=
    os_path_join (get_default_prefix VNone)
      ["drive_c/ProgramData/Battle.net/Agent/product.db"] in
  e ← os_path_exists product_db;
  if negb e then mret None else
  read_config product_db.

(** [shutdown()] *)
Definition shutdown : M unit :=
  _ ← emit (Log DEBUG "Stopping all winebattlenet processes");
  emit WineStop.

(** [check_shutdown(is_running, times)] of [prelaunch]: [True] as soon as a
    poll finds the process gone, [None] when the loop runs out. *)
Fixpoint check_shutdown_for (is_running : M bool) (xs : list nat) : M pyval :=
  match xs with
  | [] => mret VNone
  | x :: xs' =>
    _ ← emit (Sleep 1);
    r ← is_running;
    if negb r then mret (VBool true)
    else check_shutdown_for is_running xs'
  end.

Definition check_shutdown (is_running : M bool) (times : nat) : M pyval :=
  check_shutdown_for is_running (seq 1 times).

Definition prelaunch : M bool :=
  _ ← emit WinePrelaunch;
  r ← is_running;
  if (r : bool) then
    (_ ← emit (Log INFO "Waiting for Battle.net to shutdown...");
     _ ← shutdown;
     c ← check_shutdown is_running 10;
     if negb (truthy c) then
       (_ ← emit (Log INFO "Battle.net does not shut down, killing it...");
        _ ← kill;
        c ← check_shutdown is_running 5;
        if negb (truthy c) then
          (_ ← emit (Log ERROR "Failed to shut down Battle.net :(");
           mret false)
        else mret true)
     else mret true)
  else mret true.

(** [play()].  The attribute [game_launch_time], set from the clock, is
    left out. *)
Definition play (self : winebattlenet) : M PlayResult :=
  let game_args := py_or (dict_get (game_config self) "args") (VStr "") in
  let launch_env := wine_env X in
  _ ← (if truthy (dict_get (runner_config self) "x360ce-path")
       then dir ← lift (subscript (runner_config self) (VStr "x360ce-path"));
            emit (SetupX360ce dir)
       else mret ());
  run_without_bnet ← lift (subscript (runner_config self) (VStr "run_without_bnet"));
  if bool_decide (run_without_bnet = VBool true) then
    (config ← get_bnet_games;
     entry ← lift (match config with
                   | Some config => subscript config (runner_gameid self)
                   | None => Raise TypeError
                   end);
     let game_dir := path entry in
     prefix ← prefix_path self;
     let game_dir := winepath X game_dir prefix in
     isdir ← os_path_isdir game_dir;
     if negb isdir then mret (PlayError "DIR_NOT_FOUND" game_dir) else
     game ← lift (subscript gamelist (runner_gameid self));
     let game_path := os_path_join game_dir [game.1.2] in
     e ← os_path_exists game_path;
     if negb e then mret (PlayError "FILE_NOT_FOUND" game_path) else
     let command := [wine_executable X] in
     let runner_args := py_or (dict_get (runner_config self) "args") (VStr "") in
     args ← (if truthy runner_args then lift (shlex_split X runner_args) else mret []);
     let command := command ++ args in
     let command := command ++ [game_path] in
     args ← (if truthy game_args then lift (shlex_split X game_args) else mret []);
     let command := command ++ args in
     mret (Launch {| env := launch_env; command := command |}))
  else
    command ← play_through_bnet X self game_args;
    mret (Launch {| env := launch_env; command := command |}).

End Runner.

(** ** [Runner] ([runner.py]) *)

(** What a runner class has to provide: [get_executable] returns a path or
    [None]. *)
Class RunnerMethods (R : Type) : Type := {
  get_executable : R → M (option string)
}.

(** The base class itself: [get_executable] is left to the derived runners. *)
Inductive Runner : Type := mkBaseRunner.

#[global] Instance Runner_methods : RunnerMethods Runner := {|
  get_executable _ := raise NotImplementedError
|}.

(** A derived runner whose executable is a fixed path. *)
Record PathRunner : Type := mkPathRunner {
  executable_path : string
}.

#[global] Instance PathRunner_methods : RunnerMethods PathRunner := {|
  get_executable self := mret (Some (executable_path self))
|}.

(** [Runner.is_installed]: [True], or the [None] of a function that ends
    without [return]. *)
Definition Runner_is_installed {R : Type} `{RunnerMethods R} (self : R) : M pyval :=
  executable ← get_executable self;
  found ← match executable with
          | Some exe =>
            if truthy (VStr exe) then os_path_exists exe else mret false
          | None => mret false
          end;
  if (found : bool) then mret (VBool true) else mret VNone.

(** * Properties *)

(** ** Worlds and methods: general facts *)

Lemma World_eta (w : World) : w = mkWorld (fs w) (trace w).
Proof. by destruct w. Qed.

(** A method is _disk-determined_ when its result, the disk it leaves and the
    events it adds depend on the disk only, not on the events so far. *)
Definition fs_determined {A : Type} (m : M A) : Prop :=
  ∀ f, ∃ r f' evs, ∀ t, m (mkWorld f t) = (r, mkWorld f' (t ++ evs)).

(** It is a _reader_ when it moreover leaves the disk as it is. *)
Definition fs_reader {A : Type} (m : M A) : Prop :=
  ∀ f, ∃ r evs, ∀ t, m (mkWorld f t) = (r, mkWorld f (t ++ evs)).

Lemma fs_reader_determined {A : Type} (m : M A) : fs_reader m → fs_determined m.
Proof. intros H f. destruct (H f) as (r & evs & E). by exists r, f, evs. Qed.

Lemma fs_reader_ret {A : Type} (a : A) : fs_reader (mret a).
Proof. intros f. exists (Ok a), []. intros t. by rewrite app_nil_r. Qed.

Lemma fs_reader_raise {A : Type} (e : exn) : fs_reader (@raise A e).
Proof. intros f. exists (Raise e), []. intros t. by rewrite app_nil_r. Qed.

Lemma fs_reader_lift {A : Type} (r : result A) : fs_reader (lift r).
Proof. intros f. exists r, []. intros t. by rewrite app_nil_r. Qed.

Lemma fs_reader_emit (ev : event) : fs_reader (emit ev).
Proof. intros f. by exists (Ok ()), [ev]. Qed.

Lemma fs_reader_exists (p : string) : fs_reader (os_path_exists p).
Proof.
  intros f. exists (Ok (match f !! p with Some _ => true | None => false end)), [].
  intros t. by rewrite app_nil_r.
Qed.

Lemma fs_reader_isdir (p : string) : fs_reader (os_path_isdir p).
Proof.
  intros f. exists (Ok (match f !! p with Some Dir => true | _ => false end)), [].
  intros t. by rewrite app_nil_r.
Qed.

Lemma fs_reader_open (p : string) : fs_reader (open_file_rb p).
Proof.
  intros f. unfold open_file_rb. simpl.
  destruct (f !! p) as [[data|]|]; eexists _, []; intros t; by rewrite app_nil_r.
Qed.

Lemma fs_determined_update (g : gmap string node → result unit * gmap string node) :
  fs_determined (update_fs g).
Proof. intros f. exists (g f).1, (g f).2, []. intros t. by rewrite app_nil_r. Qed.

Lemma fs_reader_bind {A B : Type} (m : M A) (k : A → M B) :
  fs_reader m → (∀ a, fs_reader (k a)) → fs_reader (m ≫= k).
Proof.
  intros Hm Hk f. destruct (Hm f) as (r & evs & E). destruct r as [a|e].
  - destruct (Hk a f) as (r' & evs' & E'). exists r', (evs ++ evs').
    intros t. unfold mbind, M_bind. by rewrite E, E', app_assoc.
  - exists (Raise e), evs. intros t. unfold mbind, M_bind. by rewrite E.
Qed.

Lemma fs_determined_bind {A B : Type} (m : M A) (k : A → M B) :
  fs_determined m → (∀ a, fs_determined (k a)) → fs_determined (m ≫= k).
Proof.
  intros Hm Hk f. destruct (Hm f) as (r & f' & evs & E). destruct r as [a|e].
  - destruct (Hk a f') as (r' & f'' & evs' & E'). exists r', f'', (evs ++ evs').
    intros t. unfold mbind, M_bind. by rewrite E, E', app_assoc.
  - exists (Raise e), f', evs. intros t. unfold mbind, M_bind. by rewrite E.
Qed.

Create HintDb fsdet discriminated.
#[global] Hint Resolve fs_reader_ret fs_reader_raise fs_reader_lift fs_reader_emit
  fs_reader_exists fs_reader_isdir fs_reader_open : fsdet.
#[global] Hint Resolve fs_determined_update fs_reader_determined : fsdet.

(** Splits a method along its binds and branches. *)
Ltac fs_step :=
  lazymatch goal with
  | |- fs_reader (_ ≫= _) => apply fs_reader_bind; [|intros ?]
  | |- fs_determined (_ ≫= _) => apply fs_determined_bind; [|intros ?]
  | |- fs_reader (if ?c then _ else _) => destruct c
  | |- fs_determined (if ?c then _ else _) => destruct c
  | |- fs_reader (match ?c with _ => _ end) => destruct c
  | |- fs_determined (match ?c with _ => _ end) => destruct c
  end.

Ltac fs_solve := repeat (simpl; first [by auto with fsdet | fs_step]).

Section RunnerFacts.
Context (X : Externals).

Lemma read_config_reader (p : string) : fs_reader (read_config p).
Proof. unfold read_config. fs_solve. Qed.

Lemma get_bnet_games_reader : fs_reader (get_bnet_games X).
Proof.
  unfold get_bnet_games. fs_step; [by auto with fsdet|].
  fs_step; [by auto with fsdet|]. apply read_config_reader.
Qed.

Lemma create_prefix_determined (p : string) (arch : pyval) :
  fs_determined (create_prefix X p arch).
Proof. unfold create_prefix. fs_solve. Qed.

Lemma get_or_create_default_prefix_determined (arch : pyval) :
  fs_determined (get_or_create_default_prefix X arch).
Proof.
  unfold get_or_create_default_prefix.
  fs_step; [by auto with fsdet|]. fs_step; [|by auto with fsdet].
  fs_step; [apply create_prefix_determined | by auto with fsdet].
Qed.

Lemma prefix_path_determined (self : winebattlenet) :
  fs_determined (prefix_path X self).
Proof.
  unfold prefix_path. fs_step.
  - fs_step; [by auto with fsdet|].
    fs_step; [apply get_or_create_default_prefix_determined | by auto with fsdet].
  - fs_solve.
Qed.

End RunnerFacts.

(** ** The default prefix *)

Lemma append_inj_r (p a b : string) : p +:+ a = p +:+ b → a = b.
Proof. induction p as [|c p IH]; simpl; [done|]. intros [= E]. auto. Qed.

Lemma join_step_inj (p a b : string) :
  startswith_sep a = false → startswith_sep b = false →
  join_step p a = join_step p b → a = b.
Proof.
  unfold join_step. intros -> ->.
  destruct (String.eqb p "" || endswith_sep p).
  - apply append_inj_r.
  - intros E. apply append_inj_r in E. by apply (append_inj_r "/") in E.
Qed.

(** Unfolds the monad of methods in the goal. *)
Ltac run :=
  unfold mbind, M_bind, mret, M_ret, raise, lift, emit, update_fs,
    os_path_exists, os_path_isdir, open_file_rb; simpl.

Section PrefixFacts.
Context (X : Externals).

Definition prefix32 : string := os_path_join (RUNNER_DIR X) ["winebattlenet"; "prefix"].
Definition prefix64 : string := os_path_join (RUNNER_DIR X) ["winebattlenet"; "prefix64"].

Lemma prefix32_ne_prefix64 : prefix32 ≠ prefix64.
Proof.
  unfold prefix32, prefix64, os_path_join. simpl. intros E.
  by apply join_step_inj in E.
Qed.

Lemma get_default_prefix_cases (arch : pyval) :
  get_default_prefix X arch = if bool_decide (arch = VStr "win64") then prefix64 else prefix32.
Proof.
  unfold get_default_prefix. destruct arch as [|[]|s]; simpl; try done.
  destruct (String.eqb_spec s "") as [->|Hs]; simpl; [done|].
  case_bool_decide as E; case_decide as E'; done.
Qed.

(** The architecture that [get_or_create_default_prefix] hands on is treated
    like the one it received. *)
Lemma get_default_prefix_normalised (arch : pyval) :
  get_default_prefix X (if negb (truthy arch) then VStr default_arch else arch)
  = get_default_prefix X arch.
Proof.
  destruct (truthy arch) eqn:E; simpl; [done|].
  rewrite !get_default_prefix_cases.
  destruct arch as [|[]|s]; simpl in *; try done.
  all: destruct (String.eqb_spec s "") as [Hs|Hs]; [by subst|done].
Qed.

(** The path [get_or_create_default_prefix] returns, whenever it returns. *)
Lemma get_or_create_default_prefix_result (arch : pyval) (w : World) (p : string) :
  (get_or_create_default_prefix X arch w).1 = Ok p → p = get_default_prefix X arch.
Proof.
  unfold get_or_create_default_prefix. rewrite get_default_prefix_normalised.
  run. destruct (fs w !! get_default_prefix X arch); simpl; [by intros [= <-]|].
  destruct (create_prefix _ _ _ w) as [[[]|e] w']; simpl; [|done].
  by intros [= <-].
Qed.

(** With the prefix on disk it returns at once. *)
Lemma get_or_create_default_prefix_exists (arch : pyval) (w : World) :
  is_Some (fs w !! get_default_prefix X arch) →
  get_or_create_default_prefix X arch w = (Ok (get_default_prefix X arch), w).
Proof.
  intros [n Hn]. unfold get_or_create_default_prefix.
  rewrite get_default_prefix_normalised. run. rewrite Hn. simpl. by destruct w.
Qed.

(** C10: [get_default_prefix] depends on its argument only; it is the 64-bit
    prefix exactly when the argument is ['win64'], and the one 32-bit prefix
    for every other value, ['win32'], ['auto'] and [None] among them; for a
    game configured with the architecture ['auto'] and no prefix of its own,
    the path [prefix_path] returns, whenever it returns, is the 32-bit prefix,
    and it returns it, the world unchanged, when that prefix is on disk. *)
Theorem get_default_prefix_win64_only (arch : pyval) :
  get_default_prefix X arch
    = os_path_join (RUNNER_DIR X)
        ["winebattlenet"; if bool_decide (arch = VStr "win64") then "prefix64" else "prefix"]
  ∧ (get_default_prefix X arch = get_default_prefix X (VStr "win64") ↔ arch = VStr "win64")
  ∧ (arch ≠ VStr "win64" → get_default_prefix X arch = get_default_prefix X (VStr "win32"))
  ∧ get_default_prefix X (VStr "auto") = get_default_prefix X (VStr "win32")
  ∧ get_default_prefix X VNone = get_default_prefix X (VStr "win32")
  ∧ (∀ (self : winebattlenet) (w : World),
       dict_get (game_config self) "prefix" = VNone →
       dict_get (game_config self) "arch" = VStr "auto" →
       (∀ p, (prefix_path X self w).1 = Ok p →
          p = expanduser X (get_default_prefix X (VStr "win32")))
       ∧ (is_Some (fs w !! get_default_prefix X (VStr "win32")) →
          prefix_path X self w
          = (Ok (expanduser X (get_default_prefix X (VStr "win32"))), w))).
Proof.
  rewrite !get_default_prefix_cases.
  split; [by case_bool_decide|]. split; [split|]; [| |split; [|split; [|split]]];
    try done.
  - case_bool_decide; [done|]. rewrite bool_decide_true by done.
    intros E. by destruct prefix32_ne_prefix64.
  - intros ->. by rewrite bool_decide_true.
  - intros Hne. by rewrite bool_decide_false.
  - intros self w Hp Ha. split.
    + intros p. unfold prefix_path. rewrite Hp, Ha. simpl.
      pose proof (get_or_create_default_prefix_result (VStr "auto") w) as E.
      unfold mbind at 1. unfold M_bind. unfold mbind at 1. unfold M_bind.
      destruct (get_or_create_default_prefix X (VStr "auto") w) as [[p'|e] w'];
        simpl in E; [|done].
      simpl. intros [= <-]. rewrite (E p' eq_refl).
      by rewrite !get_default_prefix_cases.
    + intros Hdisk. unfold prefix_path. rewrite Hp, Ha. simpl.
      unfold mbind at 1. unfold M_bind. unfold mbind at 1. unfold M_bind.
      rewrite get_or_create_default_prefix_exists
        by (by rewrite get_default_prefix_cases in *).
      simpl. by rewrite !get_default_prefix_cases.
Qed.

End PrefixFacts.

Lemma fs_reader_transfer {A : Type} (m : M A) (w w1 : World) :
  fs_reader m → fs w1 = fs w →
  (m w1).1 = (m w).1 ∧ fs (m w1).2 = fs w ∧ fs (m w).2 = fs w.
Proof.
  intros Hm E. destruct (Hm (fs w)) as (r & evs & Hr).
  destruct w as [f t], w1 as [f1 t1]. simpl in *. subst f1. by rewrite !Hr.
Qed.

Lemma fs_determined_transfer {A : Type} (m : M A) (w w1 : World) :
  fs_determined m → fs w1 = fs w →
  (m w1).1 = (m w).1 ∧ fs (m w1).2 = fs (m w).2.
Proof.
  intros Hm E. destruct (Hm (fs w)) as (r & f' & evs & Hr).
  destruct w as [f t], w1 as [f1 t1]. simpl in *. subst f1. by rewrite !Hr.
Qed.

(** A world for the examples: Lutris keeps its runners under [/r], Wine creates
    the prefix it is asked for, and a Battle.net that never exits is running. *)
Definition example_externals : Externals := {|
  RUNNER_DIR := "/r";
  expanduser := λ p, p;
  default_runner_config := ∅;
  wine_executable := "/usr/bin/wine";
  wine_env := ∅;
  wine_create_prefix := λ prefix _ _ disk, (Ok (), <[prefix := Dir]> disk);
  os_makedirs := λ dir disk, (Ok (), <[dir := Dir]> disk);
  winepath := λ p _, p;
  get_pid := λ _ _, Some 7;
  process_state := λ _ _, "S";
  shlex_split := λ _, Ok [];
  play_through_bnet := λ _ _, mret []
|}.

(** The same, on a system where [os.makedirs] fails when [/r] is a regular
    file. *)
Definition strict_externals : Externals := {|
  RUNNER_DIR := "/r";
  expanduser := λ p, p;
  default_runner_config := ∅;
  wine_executable := "/usr/bin/wine";
  wine_env := ∅;
  wine_create_prefix := λ prefix _ _ disk, (Ok (), <[prefix := Dir]> disk);
  os_makedirs := λ dir disk,
    match disk !! "/r" with
    | Some (File _) => (Raise NotADirectoryError, disk)
    | _ => (Ok (), <[dir := Dir]> disk)
    end;
  winepath := λ p _, p;
  get_pid := λ _ _, Some 7;
  process_state := λ _ _, "S";
  shlex_split := λ _, Ok [];
  play_through_bnet := λ _ _, mret []
|}.

(** The exception of [os.makedirs] leaves [get_or_create_default_prefix]. *)
Lemma get_or_create_default_prefix_raises :
  (get_or_create_default_prefix strict_externals VNone
     (mkWorld {[ "/r" := File [] ]} [])).1
  = Raise NotADirectoryError.
Proof. vm_compute. reflexivity. Qed.

Section PrefixCreation.
Context (X : Externals).

(** C6: when the prefix is on disk, [get_or_create_default_prefix] returns its
    path and leaves the world as it was (no directory made, no prefix
    created, no event at all), and so does a second call right after it.  From
    any world, two calls in a row that both return, return the same path, the
    one [get_default_prefix] gives; and when the first call returns and the
    prefix is on disk after it, the second call changes nothing. *)
Theorem get_or_create_default_prefix_idempotent (arch : pyval) (w : World) :
  is_Some (fs w !! get_default_prefix X arch) →
  get_or_create_default_prefix X arch w = (Ok (get_default_prefix X arch), w)
  ∧ get_or_create_default_prefix X arch (get_or_create_default_prefix X arch w).2
    = (Ok (get_default_prefix X arch), w)
  ∧ ∀ w0 : World,
      let first := get_or_create_default_prefix X arch w0 in
      let second := get_or_create_default_prefix X arch first.2 in
      (∀ p1 p2, first.1 = Ok p1 → second.1 = Ok p2 →
         p1 = p2 ∧ p1 = get_default_prefix X arch)
      ∧ (∀ p1, first.1 = Ok p1 →
           is_Some (fs first.2 !! get_default_prefix X arch) →
           second = (Ok p1, first.2)).
Proof.
  intros Hdisk.
  pose proof (get_or_create_default_prefix_exists X arch w Hdisk) as E.
  split; [exact E|]. split; [by rewrite E|].
  intros w0. cbv zeta. split.
  - intros p1 p2 ->%get_or_create_default_prefix_result
      ->%get_or_create_default_prefix_result. done.
  - intros p1 ->%get_or_create_default_prefix_result Hdisk1.
    by apply get_or_create_default_prefix_exists.
Qed.

End PrefixCreation.

Lemma get_or_create_default_prefix_idempotent_witness :
  let w := mkWorld {["/r/winebattlenet/prefix64" := Dir]} [] in
  is_Some (fs w !! get_default_prefix example_externals (VStr "win64"))
  ∧ get_or_create_default_prefix example_externals (VStr "win64") w
    = (Ok "/r/winebattlenet/prefix64", w).
Proof.
  intros w.
  assert (H : is_Some (fs w !! get_default_prefix example_externals (VStr "win64")))
    by (exists Dir; reflexivity).
  split; [exact H|].
  exact (proj1 (get_or_create_default_prefix_idempotent example_externals
                  (VStr "win64") w H)).
Defined.

(** ** [Runner.is_installed] *)

(** C9: [Runner.is_installed] on a runner whose executable is not on disk
    returns [None], which is not the [False] its docstring announces, and on
    the base class it raises [NotImplementedError]. *)
Theorem Runner_is_installed_not_False :
  let w := mkWorld ∅ [] in
  Runner_is_installed (mkPathRunner "/usr/bin/wine") w = (Ok VNone, w)
  ∧ VNone ≠ VBool false
  ∧ Runner_is_installed mkBaseRunner w = (Raise NotImplementedError, w).
Proof. by vm_compute. Qed.

(** In general: whenever the executable a runner names is missing. *)
Lemma Runner_is_installed_missing (exe : string) (w : World) :
  fs w !! exe = None →
  Runner_is_installed (mkPathRunner exe) w = (Ok VNone, w).
Proof.
  intros H. unfold Runner_is_installed. simpl. run.
  destruct (negb (exe =? "")%string); run; by rewrite ?H.
Qed.

(** ** Reading the product database *)

Section ReadPath.
Context (X : Externals).

(** C7: the mapping [products_parse] returns depends on the bytes read only,
    and [get_bnet_games] reads without writing: it leaves the disk as it is,
    so a second call right after the first, or any call on the same disk,
    returns what the first returned. *)
Theorem products_parse_deterministic (f1 f2 : FileObj) (w w2 : World) :
  (file_read f1).1 = (file_read f2).1 →
  fs w2 = fs w →
  (products_parse f1).1 = (products_parse f2).1
  ∧ fs (get_bnet_games X w).2 = fs w
  ∧ (get_bnet_games X (get_bnet_games X w).2).1 = (get_bnet_games X w).1
  ∧ (get_bnet_games X w2).1 = (get_bnet_games X w).1.
Proof.
  intros Hb Hfs. split; [|split; [|split]].
  - unfold products_parse. destruct (file_read f1) as [b1 g1], (file_read f2) as [b2 g2].
    simpl in Hb. by subst b2.
  - by destruct (fs_reader_transfer _ w w (get_bnet_games_reader X) eq_refl)
      as (_ & _ & E).
  - destruct (fs_reader_transfer _ w w (get_bnet_games_reader X) eq_refl)
      as (_ & _ & E).
    by destruct (fs_reader_transfer _ w _ (get_bnet_games_reader X) E) as (E' & _).
  - by destruct (fs_reader_transfer _ w w2 (get_bnet_games_reader X) Hfs) as (E & _).
Qed.

(** C5: with [run_without_bnet] set, a product database that lists the game
    and a prefix that resolves, [play] returns the mapping
    [{'error': 'DIR_NOT_FOUND', 'file': game_dir}] when [game_dir], the
    directory [winepath] gives for the game, is not on disk. *)
Theorem play_missing_directory (self : winebattlenet) (w w2 : World)
    (products : gmap string Product) (entry : Product) (prefix : string) :
  subscript (runner_config X self) (VStr "run_without_bnet") = Ok (VBool true) →
  (get_bnet_games X w).1 = Ok (Some products) →
  subscript products (runner_gameid self) = Ok entry →
  prefix_path X self w = (Ok prefix, w2) →
  fs w2 !! winepath X (path entry) prefix = None →
  ∃ w' : World,
    play X self w
    = (Ok (PlayError "DIR_NOT_FOUND" (winepath X (path entry) prefix)), w').
Proof.
  intros Hrun Hdb Hentry Hprefix Hdir. unfold play.
  set (setup := if truthy (dict_get (runner_config X self) "x360ce-path") then _ else _).
  assert (Hsetup : ∃ w1, setup w = (Ok (), w1) ∧ fs w1 = fs w).
  { subst setup. unfold dict_get, subscript.
    destruct (runner_config X self !! "x360ce-path") as [v|]; simpl.
    - destruct (truthy v); run; eauto.
    - run. eauto. }
  destruct Hsetup as (w1 & Hsetup & Hfs1).
  unfold mbind at 1. unfold M_bind at 1. rewrite Hsetup.
  unfold mbind at 1. unfold M_bind at 1. unfold lift at 1. rewrite Hrun.
  rewrite bool_decide_true by done.
  destruct (fs_reader_transfer (get_bnet_games X) w w1 (get_bnet_games_reader X) Hfs1)
    as (Hr & Hfs1' & _).
  unfold mbind at 1. unfold M_bind at 1.
  destruct (get_bnet_games X w1) as [r1 w1'] eqn:Eg. simpl in Hr, Hfs1'.
  rewrite Hr, Hdb.
  unfold mbind at 1. unfold M_bind at 1. unfold lift at 1. rewrite Hentry.
  destruct (fs_determined_transfer (prefix_path X self) w w1'
              (prefix_path_determined X self) Hfs1') as (Hp & Hfs2).
  unfold mbind at 1. unfold M_bind at 1.
  destruct (prefix_path X self w1') as [r2 w2'] eqn:Ep. rewrite Hprefix in Hp, Hfs2.
  simpl in Hp, Hfs2. subst r2.
  run. rewrite Hfs2, Hdir. simpl. eauto.
Qed.

End ReadPath.

(** ** Shutting Battle.net down before a launch *)

Definition is_sleep (ev : event) : bool :=
  match ev with Sleep _ => true | _ => false end.

Definition is_kill (ev : event) : bool :=
  match ev with KillPid _ => true | _ => false end.

(** The polls of the two tiers: the waits before the first [kill_pid] and the
    waits from it on. *)
Fixpoint first_tier (evs : list event) : nat :=
  match evs with
  | [] => 0
  | ev :: evs' =>
    if is_kill ev then 0
    else (if is_sleep ev then 1 else 0) + first_tier evs'
  end.

Fixpoint second_tier (evs : list event) : nat :=
  match evs with
  | [] => 0
  | ev :: evs' =>
    if is_kill ev then length (filter (λ ev, is_sleep ev = true) evs')
    else second_tier evs'
  end.

(** The events of the graceful stop and of the forced one. *)
Definition graceful_stop : list event :=
  [WinePrelaunch; Log INFO "Waiting for Battle.net to shutdown...";
   Log DEBUG "Stopping all winebattlenet processes"; WineStop].

Definition forced_stop (pid1 pid2 : option nat) : list event :=
  [Log INFO "Battle.net does not shut down, killing it..."; KillPid pid1; KillPid pid2].

Section Shutdown.
Context (X : Externals).

(** What [is_running()] answers after the events [t]. *)
Definition running_after (t : list event) : bool :=
  match get_pid X t "Battle.net.exe$" with
  | Some pid => negb (String.eqb (process_state X t pid) "Z")
  | None => false
  end.

Lemma is_running_spec (w : World) :
  is_running X w = (Ok (running_after (trace w)), w).
Proof.
  unfold is_running, running_after, system_get_pid, Process_state. run.
  by destruct (get_pid X (trace w) "Battle.net.exe$").
Qed.

(** The two processes [kill()] asks to kill after the events [t]: what
    [get_pid] finds for Battle.net, then for its agent. *)
Definition killed_after (t : list event) : option nat * option nat :=
  let pid1 := get_pid X t "Battle.net.exe$" in
  (pid1, get_pid X (t ++ [KillPid pid1]) "Agent.exe$").

(** The polls [1] to [k] after the events [t], one second apart, all find
    Battle.net running. *)
Definition still_running (t : list event) (k : nat) : Prop :=
  ∀ j, 1 ≤ j ≤ k → running_after (t ++ replicate j (Sleep 1)) = true.

Lemma kill_spec (f : gmap string node) (t : list event) :
  kill X (mkWorld f t)
  = (Ok (), mkWorld f (t ++ [KillPid (killed_after t).1; KillPid (killed_after t).2])).
Proof.
  unfold kill, killed_after, system_get_pid. run.
  by rewrite <- app_assoc.
Qed.

Lemma still_running_cons (t : list event) (k : nat) :
  running_after (t ++ [Sleep 1]) = true →
  still_running (t ++ [Sleep 1]) k → still_running t (S k).
Proof.
  intros H1 H j Hj. destruct j as [|[|j]]; [lia|exact H1|].
  replace (t ++ replicate (S (S j)) (Sleep 1))
    with ((t ++ [Sleep 1]) ++ replicate (S j) (Sleep 1))
    by (simpl; by rewrite <- app_assoc).
  apply H. lia.
Qed.

Lemma bind_emit {A : Type} (ev : event) (k : () → M A) (f : gmap string node)
    (t : list event) :
  (emit ev ≫= k) (mkWorld f t) = k () (mkWorld f (t ++ [ev])).
Proof. done. Qed.

Lemma bind_ok {A B : Type} (m : M A) (k : A → M B) (w w' : World) (a : A) :
  m w = (Ok a, w') → (m ≫= k) w = k a w'.
Proof. intros E. unfold mbind, M_bind. by rewrite E. Qed.

Lemma bind_is_running {A : Type} (k : bool → M A) (w : World) :
  (is_running X ≫= k) w = k (running_after (trace w)) w.
Proof. apply bind_ok, is_running_spec. Qed.

Lemma bind_shutdown {A : Type} (k : () → M A) (f : gmap string node) (t : list event) :
  (shutdown ≫= k) (mkWorld f t)
  = k () (mkWorld f (t ++ [Log DEBUG "Stopping all winebattlenet processes"; WineStop])).
Proof. apply bind_ok. unfold shutdown. run. by rewrite <- app_assoc. Qed.

Lemma check_shutdown_for_cons (x : nat) (xs : list nat) (f : gmap string node)
    (t : list event) :
  check_shutdown_for (is_running X) (x :: xs) (mkWorld f t)
  = if running_after (t ++ [Sleep 1])
    then check_shutdown_for (is_running X) xs (mkWorld f (t ++ [Sleep 1]))
    else (Ok (VBool true), mkWorld f (t ++ [Sleep 1])).
Proof.
  cbn [check_shutdown_for]. rewrite bind_emit, bind_is_running. cbn [trace].
  by destruct (running_after (t ++ [Sleep 1])).
Qed.

(** The loop of [check_shutdown]: it waits one second before each poll, stops
    with [True] at the first poll that finds no process, the polls before it
    having found one, and gives [None] after the last poll when every poll
    found the process. *)
Lemma check_shutdown_for_spec (xs : list nat) (f : gmap string node) (t : list event) :
  ∃ k : nat,
    k ≤ length xs ∧
    ((check_shutdown_for (is_running X) xs (mkWorld f t)
        = (Ok (VBool true), mkWorld f (t ++ replicate k (Sleep 1)))
      ∧ 1 ≤ k ∧ still_running t (k - 1)
      ∧ running_after (t ++ replicate k (Sleep 1)) = false)
     ∨ (check_shutdown_for (is_running X) xs (mkWorld f t)
          = (Ok VNone, mkWorld f (t ++ replicate k (Sleep 1)))
        ∧ k = length xs ∧ still_running t k)).
Proof.
  revert t. induction xs as [|x xs IH]; intros t.
  - exists 0. split; [done|]. right. simpl. rewrite app_nil_r.
    split; [done|]. split; [done|]. intros j Hj. lia.
  - rewrite check_shutdown_for_cons.
    destruct (running_after (t ++ [Sleep 1])) eqn:Er; simpl.
    + destruct (IH (t ++ [Sleep 1])) as (k & Hk & H). exists (S k).
      split; [simpl; lia|].
      assert (Et : t ++ replicate (S k) (Sleep 1)
                   = (t ++ [Sleep 1]) ++ replicate k (Sleep 1))
        by (simpl; by rewrite <- app_assoc).
      rewrite Et.
      destruct H as [(E & Hk1 & Hs & Hr)|(E & Hk' & Hs)]; [left|right];
        (split; [exact E|]).
      * split; [lia|]. split; [|done].
        replace (S k - 1) with (S (k - 1)) by lia. by apply still_running_cons.
      * split; [simpl; by rewrite Hk'|]. by apply still_running_cons.
    + exists 1. split; [lia|]. left. simpl. rewrite Er.
      split; [done|]. split; [done|]. split; [|done]. intros j Hj. lia.
Qed.

(** C4, as the code has it: [prelaunch] asks for a graceful stop, polls once a
    second at most 10 times, then kills the processes and polls at most 5 more
    times.  It returns [True] at once when Battle.net is not running, and
    otherwise at the first poll that finds it gone, every poll before that one
    having found it running; it returns [False], after the error log, exactly
    when all 15 polls found it running.  It always returns. *)
Theorem prelaunch_escalation (w : World) :
  ∃ (r : bool) (evs : list event),
    prelaunch X w = (Ok r, mkWorld (fs w) (trace w ++ evs))
    ∧ ((r = true ∧ running_after (trace w ++ evs) = false
        ∧ (evs = [WinePrelaunch]
           ∨ (∃ k, 1 ≤ k ≤ 10 ∧ evs = graceful_stop ++ replicate k (Sleep 1)
                ∧ running_after (trace w ++ [WinePrelaunch]) = true
                ∧ still_running (trace w ++ graceful_stop) (k - 1))
           ∨ (∃ k pid1 pid2, 1 ≤ k ≤ 5
                ∧ evs = graceful_stop ++ replicate 10 (Sleep 1)
                        ++ forced_stop pid1 pid2 ++ replicate k (Sleep 1)
                ∧ (pid1, pid2)
                  = killed_after
                      (trace w ++ graceful_stop ++ replicate 10 (Sleep 1)
                       ++ [Log INFO "Battle.net does not shut down, killing it..."])
                ∧ running_after (trace w ++ [WinePrelaunch]) = true
                ∧ still_running (trace w ++ graceful_stop) 10
                ∧ still_running
                    (trace w ++ graceful_stop ++ replicate 10 (Sleep 1)
                     ++ forced_stop pid1 pid2) (k - 1))))
       ∨ (r = false
          ∧ ∃ pid1 pid2,
              evs = graceful_stop ++ replicate 10 (Sleep 1)
                    ++ forced_stop pid1 pid2 ++ replicate 5 (Sleep 1)
                    ++ [Log ERROR "Failed to shut down Battle.net :("]
              ∧ (pid1, pid2)
                = killed_after
                    (trace w ++ graceful_stop ++ replicate 10 (Sleep 1)
                     ++ [Log INFO "Battle.net does not shut down, killing it..."])
              ∧ running_after (trace w ++ [WinePrelaunch]) = true
              ∧ still_running (trace w ++ graceful_stop) 10
              ∧ still_running
                  (trace w ++ graceful_stop ++ replicate 10 (Sleep 1)
                   ++ forced_stop pid1 pid2) 5)).
Proof.
  destruct w as [f t]. unfold prelaunch.
  rewrite bind_emit, bind_is_running. cbv beta. cbn [trace fs].
  destruct (running_after (t ++ [WinePrelaunch])) eqn:E0.
  2:{ exists true, [WinePrelaunch]. split; [done|]. left. eauto. }
  rewrite bind_emit, bind_shutdown.
  assert (Et1 : ((t ++ [WinePrelaunch])
                  ++ [Log INFO "Waiting for Battle.net to shutdown..."])
                  ++ [Log DEBUG "Stopping all winebattlenet processes"; WineStop]
                = t ++ graceful_stop).
  { unfold graceful_stop. by rewrite <- !app_assoc. }
  rewrite Et1. unfold check_shutdown.
  destruct (check_shutdown_for_spec (seq 1 10) f (t ++ graceful_stop)) as (k & Hk & H).
  rewrite length_seq in Hk.
  destruct H as [(E & Hk1 & Hs1 & Hr)|(E & Hk' & Hs1)];
    rewrite (bind_ok _ _ _ _ _ E); cbn [truthy negb].
  { exists true, (graceful_stop ++ replicate k (Sleep 1)).
    rewrite app_assoc. split; [done|]. left. split; [done|].
    split; [done|]. right. left. exists k. split; [lia|done]. }
  rewrite length_seq in Hk'. subst k.
  rewrite bind_emit.
  set (t1 := t ++ graceful_stop ++ replicate 10 (Sleep 1)
             ++ [Log INFO "Battle.net does not shut down, killing it..."]).
  assert (Et2 : ((t ++ graceful_stop) ++ replicate 10 (Sleep 1))
                  ++ [Log INFO "Battle.net does not shut down, killing it..."]
                = t1)
    by (subst t1; by rewrite <- !app_assoc).
  rewrite Et2, (bind_ok _ _ _ _ _ (kill_spec f t1)).
  destruct (killed_after t1) as [pid1 pid2] eqn:Ekill. cbn [fst snd].
  assert (Et3 : t1 ++ [KillPid pid1; KillPid pid2]
                = t ++ graceful_stop ++ replicate 10 (Sleep 1) ++ forced_stop pid1 pid2).
  { subst t1. unfold forced_stop. rewrite <- !app_assoc. done. }
  rewrite Et3.
  set (t2 := t ++ graceful_stop ++ replicate 10 (Sleep 1) ++ forced_stop pid1 pid2).
  destruct (check_shutdown_for_spec (seq 1 5) f t2) as (k & Hk2 & H).
  rewrite length_seq in Hk2.
  destruct H as [(E2 & Hk1 & Hs2 & Hr)|(E2 & Hk' & Hs2)];
    rewrite (bind_ok _ _ _ _ _ E2); cbn [truthy negb].
  { exists true, (graceful_stop ++ replicate 10 (Sleep 1)
                   ++ forced_stop pid1 pid2 ++ replicate k (Sleep 1)).
    assert (Eq : t ++ graceful_stop ++ replicate 10 (Sleep 1)
                   ++ forced_stop pid1 pid2 ++ replicate k (Sleep 1)
                 = t2 ++ replicate k (Sleep 1)).
    { subst t2. by rewrite <- !app_assoc. }
    rewrite Eq. split; [done|]. left. split; [done|]. split; [done|].
    right. right. exists k, pid1, pid2. split; [lia|done]. }
  rewrite length_seq in Hk'. subst k.
  exists false, (graceful_stop ++ replicate 10 (Sleep 1)
                  ++ forced_stop pid1 pid2 ++ replicate 5 (Sleep 1)
                  ++ [Log ERROR "Failed to shut down Battle.net :("]).
  split.
  - rewrite bind_emit. subst t2. unfold mret, M_ret. by rewrite <- !app_assoc.
  - right. split; [done|]. by exists pid1, pid2.
Qed.

End Shutdown.

(** C4 as the specification has it: the tier of polls before the kill is the
    short one, the tier after it the longer one. *)
Definition short_tier_first (X : Externals) (w : World) : Prop :=
  first_tier (trace (prelaunch X w).2) < second_tier (trace (prelaunch X w).2).

(** With a Battle.net that never exits, [prelaunch] polls 10 times before the
    kill and 5 times after it, and returns [False]. *)
Lemma prelaunch_long_tier_first :
  (∀ t, running_after example_externals t = true)
  ∧ (prelaunch example_externals (mkWorld ∅ [])).1 = Ok false
  ∧ first_tier (trace (prelaunch example_externals (mkWorld ∅ [])).2) = 10
  ∧ second_tier (trace (prelaunch example_externals (mkWorld ∅ [])).2) = 5
  ∧ ¬ short_tier_first example_externals (mkWorld ∅ []).
Proof.
  split; [done|]. split; [by vm_compute|]. split; [by vm_compute|].
  split; [by vm_compute|]. unfold short_tier_first.
  replace (first_tier _) with 10 by (by vm_compute).
  replace (second_tier _) with 5 by (by vm_compute). lia.
Qed.

(** ** The scan for anchors *)

(** The anchor pattern occurs at offset [p] of the buffer. *)
Definition anchor_at (buf : bytes) (p : nat) : bool :=
  match drop p buf with
  | b0 :: b1 :: b2 :: b3 :: _ => regex_product_db b0 b1 b2 b3
  | _ => false
  end.

(** The matches of a scan are apart by the length of the anchor at least. *)
Abbreviation apart := (λ a b : nat, a + 4 ≤ b).

Lemma anchor_at_length (buf : bytes) (p : nat) :
  anchor_at buf p = true → p + 4 ≤ length buf.
Proof.
  unfold anchor_at. intros H.
  assert (4 ≤ length (drop p buf)); [|rewrite length_drop in *; lia].
  destruct (drop p buf) as [|? [|? [|? [|? ?]]]]; simpl in *; try done. lia.
Qed.

Lemma anchor_at_app_l (pre buf : bytes) (p : nat) :
  anchor_at (pre ++ buf) (length pre + p) = anchor_at buf p.
Proof. unfold anchor_at. by rewrite drop_app_add. Qed.

Lemma finditer_from_lower (buf : bytes) :
  ∀ pos s, s ∈ finditer_from pos buf → pos ≤ s ∧ anchor_at buf (s - pos) = true.
Proof.
  induction buf as [buf IH] using (induction_ltof1 _ length). unfold ltof in IH.
  intros pos s. destruct buf as [|b0 tl]; simpl; [by intros ?%elem_of_nil|].
  assert (Htl : s ∈ finditer_from (S pos) tl →
                pos ≤ s ∧ anchor_at (b0 :: tl) (s - pos) = true).
  { intros Hs. apply IH in Hs as [Hle Ha]; [|simpl; lia].
    split; [lia|]. by replace (s - pos) with (S (s - S pos)) by lia. }
  destruct tl as [|b1 [|b2 [|b3 tl']]]; try done.
  destruct (regex_product_db b0 b1 b2 b3) eqn:E; [|done].
  intros [->|Hs]%elem_of_cons.
  - split; [lia|]. by rewrite Nat.sub_diag.
  - apply IH in Hs as [Hle Ha]; [|simpl; lia]. split; [lia|].
    by replace (s - pos) with (4 + (s - (pos + 4))) by lia.
Qed.

Lemma finditer_from_sorted (buf : bytes) :
  ∀ pos, StronglySorted apart (finditer_from pos buf).
Proof.
  induction buf as [buf IH] using (induction_ltof1 _ length). unfold ltof in IH.
  intros pos. destruct buf as [|b0 tl]; simpl; [constructor|].
  assert (Htl : StronglySorted apart (finditer_from (S pos) tl))
    by (apply IH; simpl; lia).
  destruct tl as [|b1 [|b2 [|b3 tl']]]; try done.
  destruct (regex_product_db b0 b1 b2 b3); [|done].
  constructor; [apply IH; simpl; lia|].
  apply Forall_forall. intros s Hs. by apply finditer_from_lower in Hs as [? _].
Qed.

(** An occurrence of the anchor is a match, unless one of its first three
    bytes is the last byte of a match. *)
Lemma finditer_from_complete (buf : bytes) :
  ∀ pos p, anchor_at buf p = true →
    pos + p ∈ finditer_from pos buf
    ∨ ∃ q, q ∈ finditer_from pos buf ∧ q < pos + p < q + 4.
Proof.
  induction buf as [buf IH] using (induction_ltof1 _ length). unfold ltof in IH.
  intros pos p Ha. pose proof (anchor_at_length _ _ Ha) as Hlen.
  destruct buf as [|b0 [|b1 [|b2 [|b3 tl']]]]; simpl in Hlen; try lia.
  cbn [finditer_from]. destruct (regex_product_db b0 b1 b2 b3) eqn:E.
  - destruct (decide (p = 0)) as [->|Hp0].
    { left. rewrite Nat.add_0_r. by left. }
    destruct (decide (p < 4)) as [Hp4|Hp4].
    { right. exists pos. split; [by left|lia]. }
    replace p with (4 + (p - 4)) in Ha by lia. change (anchor_at tl' (p - 4) = true) in Ha.
    destruct (IH tl' ltac:(simpl; lia) (pos + 4) _ Ha) as [H|(q & Hq & Hlt)].
    + left. right. by replace (pos + p) with (pos + 4 + (p - 4)) by lia.
    + right. exists q. split; [by right|lia].
  - destruct p as [|p]; [unfold anchor_at in Ha; simpl in Ha; congruence|].
    change (anchor_at (b1 :: b2 :: b3 :: tl') p = true) in Ha.
    destruct (IH (b1 :: b2 :: b3 :: tl') ltac:(simpl; lia) (S pos) _ Ha)
      as [H|(q & Hq & Hlt)].
    + left. by replace (pos + S p) with (S pos + p) by lia.
    + right. exists q. split; [done|lia].
Qed.

(** ** The records of a scan *)

(** The offset at which the body of the loop ends for the match at [start]:
    the end of the region its three fields take, as the length bytes give it. *)
Definition record_extent (buf : bytes) (start : nat) : result nat :=
  let offset := start + 4 in
  length ← index buf offset;
  let offset := offset + 1 + length + 1 in
  length ← index buf offset;
  let offset := offset + 1 + length + 3 in
  length ← index buf offset;
  Ok (offset + 1 + length).

(** The entry the body of the loop stores for the match at [start]. *)
Definition record_at (buf : bytes) (start : nat) : result Product :=
  let offset := start + 4 in
  length ← index buf offset;
  let offset := offset + 1 in
  name ← decode (slice buf offset (offset + length));
  let offset := offset + length + 1 in
  length ← index buf offset;
  let offset := offset + 1 in
  code ← decode (slice buf offset (offset + length));
  let offset := offset + length + 3 in
  length ← index buf offset;
  let offset := offset + 1 in
  path ← decode (slice buf offset (offset + length));
  Ok {| gameid := name; path := path; code := code |}.

(** [products[name] = {...}] *)
Definition store (products : gmap string Product) (r : Product) : gmap string Product :=
  <[gameid r := r]> products.

Ltac result_cases :=
  repeat match goal with
  | |- context [index ?b ?i] => destruct (index b i); simpl; try done
  | |- context [decode ?b] => destruct (decode b); simpl; try done
  end.

Lemma products_parse_body_record (buf : bytes) (m : gmap string Product) (s : nat) :
  products_parse_body buf m s = r ← record_at buf s; Ok (store m r).
Proof.
  unfold products_parse_body, record_at, mbind, result_bind. result_cases.
Qed.

Lemma record_at_raises (buf : bytes) (s : nat) (e : exn) :
  record_at buf s = Raise e → e = IndexError ∨ e = UnicodeDecodeError.
Proof.
  unfold record_at, mbind, result_bind, index, decode.
  repeat match goal with
  | |- context [match ?b !! ?i with _ => _ end] => destruct (b !! i); simpl
  | |- context [if utf8_valid ?b then _ else _] => destruct (utf8_valid b); simpl
  end; intros [= <-]; auto.
Qed.

(** A match whose record extends over a length byte that is not there cannot
    be read. *)
Lemma record_at_extent (buf : bytes) (s : nat) (r : Product) :
  record_at buf s = Ok r → ∃ e, record_extent buf s = Ok e.
Proof.
  unfold record_at, record_extent, mbind, result_bind.
  destruct (index buf (s + 4)) as [n|]; simpl; [|done].
  destruct (decode _); simpl; [|done].
  destruct (index buf (s + 4 + 1 + n + 1)) as [c|]; simpl; [|done].
  destruct (decode _); simpl; [|done].
  destruct (index buf (s + 4 + 1 + n + 1 + 1 + c + 3)) as [k|]; simpl; [|done].
  eauto.
Qed.

Lemma products_parse_loop_ok (buf : bytes) (l : list nat) :
  ∀ m m', products_parse_loop buf l m = Ok m' →
    ∃ rs, Forall2 (λ s r, record_at buf s = Ok r) l rs ∧ m' = foldl store m rs.
Proof.
  induction l as [|s l IH]; intros m m'; simpl.
  - intros [= <-]. by exists [].
  - rewrite products_parse_body_record. unfold mbind, result_bind.
    destruct (record_at buf s) as [r|e] eqn:Er; [|done].
    intros (rs & Hrs & ->)%IH. exists (r :: rs). split; [by constructor|done].
Qed.

Lemma products_parse_loop_records (buf : bytes) (l : list nat) (rs : list Product) :
  Forall2 (λ s r, record_at buf s = Ok r) l rs →
  ∀ m, products_parse_loop buf l m = Ok (foldl store m rs).
Proof.
  induction 1 as [|s r l rs Hr _ IH]; intros m; simpl; [done|].
  rewrite products_parse_body_record, Hr. apply IH.
Qed.

Lemma products_parse_loop_raise (buf : bytes) (l : list nat) :
  ∀ m e, products_parse_loop buf l m = Raise e → e = IndexError ∨ e = UnicodeDecodeError.
Proof.
  induction l as [|s l IH]; intros m e; simpl; [done|].
  rewrite products_parse_body_record. unfold mbind, result_bind.
  destruct (record_at buf s) as [r|e'] eqn:Er.
  - apply IH.
  - intros [= <-]. by eapply record_at_raises.
Qed.

Lemma foldl_store_last (rs2 : list Product) :
  ∀ (r : Product) (m : gmap string Product),
    m !! gameid r = Some r →
    (∀ r', r' ∈ rs2 → gameid r' ≠ gameid r) →
    foldl store m rs2 !! gameid r = Some r.
Proof.
  induction rs2 as [|r2 rs2 IH]; intros r m Hm Hne; simpl; [done|].
  apply IH.
  - unfold store. rewrite lookup_insert_ne; [done|]. apply Hne. by left.
  - intros r' Hr'. apply Hne. by right.
Qed.

Lemma foldl_store_app (rs1 rs2 : list Product) (m : gmap string Product) :
  foldl store m (rs1 ++ rs2) = foldl store (foldl store m rs1) rs2.
Proof. apply foldl_app. Qed.

Lemma foldl_store_size (rs : list Product) :
  ∀ m : gmap string Product,
    NoDup (gameid <$> rs) →
    (∀ r, r ∈ rs → m !! gameid r = None) →
    size (foldl store m rs) = size m + length rs.
Proof.
  induction rs as [|r rs IH]; intros m Hnd Hm; simpl; [lia|].
  apply NoDup_cons in Hnd as [Hr Hnd].
  rewrite IH; [|done|].
  - unfold store. rewrite map_size_insert_None; [lia|]. apply Hm. by left.
  - intros r' Hr'. unfold store. rewrite lookup_insert_ne; [apply Hm; by right|].
    intros E. apply Hr. rewrite E. by apply list_elem_of_fmap_2.
Qed.

#[global] Arguments products_parse : simpl never.

Lemma products_parse_open (buf : bytes) :
  (products_parse (open_rb buf)).1 = products_parse_loop buf (finditer buf) ∅.
Proof. done. Qed.

(** C8: [read_config] returns [None] for a database whose mapping has no
    ['battle.net'] entry; and in the mapping of [products_parse] the entry of a
    gameid is the record of the last match that bears it. *)
Theorem read_config_root_entry :
  (∀ (p : string) (w : World) (data : bytes) (products : gmap string Product),
     fs w !! p = Some (File data) →
     (products_parse (open_rb data)).1 = Ok products →
     products !! "battle.net" = None →
     (read_config p w).1 = Ok None)
  ∧ (∀ (buf : bytes) (products : gmap string Product) (before after : list nat)
       (s : nat) (r : Product),
     (products_parse (open_rb buf)).1 = Ok products →
     finditer buf = before ++ s :: after →
     record_at buf s = Ok r →
     (∀ s' r', s' ∈ after → record_at buf s' = Ok r' → gameid r' ≠ gameid r) →
     products !! gameid r = Some r).
Proof.
  split.
  - intros p w data products Hp Hparse Hroot. unfold read_config.
    unfold mbind, M_bind, os_path_exists, open_file_rb, lift.
    rewrite Hp. cbn -[products_parse]. rewrite Hp, Hparse.
    unfold subscript. by rewrite Hroot.
  - intros buf products before after s r Hparse Hsplit Hr Hlast.
    rewrite products_parse_open, Hsplit in Hparse.
    apply products_parse_loop_ok in Hparse as (rs & Hrs & ->).
    apply Forall2_app_inv_l in Hrs as (rs1 & rs2' & Hrs1 & Hrs2 & ->).
    apply Forall2_cons_inv_l in Hrs2 as (r0 & rs2 & Hr0 & Hrs2 & ->).
    rewrite Hr in Hr0. injection Hr0 as <-.
    rewrite foldl_store_app. simpl. apply foldl_store_last.
    + unfold store. apply lookup_insert_eq.
    + intros r' Hr'. apply list_elem_of_lookup in Hr' as [i Hi].
      destruct (Forall2_lookup_r _ _ _ _ _ Hrs2 Hi) as (s' & Hs' & Hrec).
      eapply Hlast; [|done]. by eapply list_elem_of_lookup_2.
Qed.

(** ** Anchors inside the fields of a record *)



(** ** Truncated buffers *)

(** The fields of the match at [s] reach beyond the end of the buffer. *)
Definition cut_short (buf : bytes) (s : nat) : Prop :=
  match record_extent buf s with
  | Ok e => length buf < e
  | Raise _ => True
  end.

(** C2 as the specification has it: a buffer with a match whose fields are cut
    short is not parsed. *)
Definition truncation_detected (buf : bytes) : Prop :=
  ∀ s, s ∈ finditer buf → cut_short buf s →
    ∃ e, (products_parse (open_rb buf)).1 = Raise e.

Lemma products_parse_loop_raise_at (buf : bytes) (l : list nat) :
  ∀ m e, products_parse_loop buf l m = Raise e →
    ∃ s, s ∈ l ∧ record_at buf s = Raise e.
Proof.
  induction l as [|s l IH]; intros m e; simpl; [done|].
  rewrite products_parse_body_record. unfold mbind, result_bind.
  destruct (record_at buf s) as [r|e'] eqn:Er.
  - intros (s' & Hs' & E)%IH. exists s'. split; [by right|done].
  - intros [= <-]. exists s. split; [by left|done].
Qed.

Definition is_ascii (b : byte) : Prop := byte_in 0 127 b = true.

Lemma utf8_valid_ascii (bs : bytes) : Forall is_ascii bs → utf8_valid bs = true.
Proof. induction 1 as [|b bs Hb _ IH]; simpl; [done|]. by rewrite Hb. Qed.

Lemma record_at_ascii (buf : bytes) (s : nat) :
  Forall is_ascii buf → record_at buf s ≠ Raise UnicodeDecodeError.
Proof.
  intros Hbuf.
  assert (Hdec : ∀ a b, decode (slice buf a b) = Ok (string_of_list_byte (slice buf a b))).
  { intros a b. unfold decode, slice.
    by rewrite utf8_valid_ascii by by apply Forall_take, Forall_drop. }
  unfold record_at, mbind, result_bind. cbv zeta.
  repeat first
    [ rewrite Hdec
    | match goal with
      | |- context [index ?b ?i] => destruct (index b i) as [?|[]] eqn:?
      end ]; try done.
  all: unfold index in *; repeat case_match; congruence.
Qed.

(** When the three length bytes of a match are in the buffer, reading its
    record does not raise [IndexError]: slices never do. *)
Lemma record_at_no_IndexError (buf : bytes) (s e : nat) :
  record_extent buf s = Ok e → record_at buf s ≠ Raise IndexError.
Proof.
  unfold record_at, record_extent, mbind, result_bind, decode. cbv zeta.
  destruct (index buf (s + 4)) as [n|]; simpl; [|done].
  destruct (index buf (s + 4 + 1 + n + 1)) as [c|]; simpl; [|done].
  destruct (index buf (s + 4 + 1 + n + 1 + 1 + c + 3)) as [k|]; simpl; [|done].
  intros _. repeat (case_match; simplify_eq; simpl; try done).
Qed.

(** When moreover the buffer ends before the end of the fields, it ends
    inside the path: the name and the code are read as they are, and the path
    is all that is left of the buffer. *)
Lemma record_at_cut_path (buf : bytes) (s e : nat) :
  record_extent buf s = Ok e → length buf < e →
  ∃ n c o,
    index buf (s + 4) = Ok n
    ∧ index buf (s + 4 + 1 + n + 1) = Ok c
    ∧ o = s + 4 + 1 + n + 1 + 1 + c + 3 + 1
    ∧ index buf (o - 1) = Ok (e - o)
    ∧ o ≤ length buf
    ∧ record_at buf s
      = (name ← decode (slice buf (s + 4 + 1) (s + 4 + 1 + n));
         code ← decode (slice buf (s + 4 + 1 + n + 1 + 1) (s + 4 + 1 + n + 1 + 1 + c));
         path ← decode (drop o buf);
         Ok {| gameid := name; path := path; code := code |}).
Proof.
  intros He Hlen. unfold record_extent in He. cbv zeta in He.
  destruct (index buf (s + 4)) as [n|] eqn:E1; [|done]. cbn in He.
  destruct (index buf (s + 4 + 1 + n + 1)) as [c|] eqn:E2; [|done]. cbn in He.
  destruct (index buf (s + 4 + 1 + n + 1 + 1 + c + 3)) as [k|] eqn:E3; [|done].
  cbn in He. injection He as <-.
  exists n, c, (s + 4 + 1 + n + 1 + 1 + c + 3 + 1).
  assert (Hin : s + 4 + 1 + n + 1 + 1 + c + 3 < length buf).
  { unfold index in E3.
    destruct (buf !! (s + 4 + 1 + n + 1 + 1 + c + 3)) eqn:L; [|done].
    by apply lookup_lt_Some in L. }
  split; [done|]. split; [done|]. split; [done|]. split.
  { replace (s + 4 + 1 + n + 1 + 1 + c + 3 + 1 - 1)
      with (s + 4 + 1 + n + 1 + 1 + c + 3) by lia.
    rewrite E3. f_equal. lia. }
  split; [lia|].
  assert (Hslice : slice buf (s + 4 + 1 + n + 1 + 1 + c + 3 + 1)
                     (s + 4 + 1 + n + 1 + 1 + c + 3 + 1 + k)
                   = drop (s + 4 + 1 + n + 1 + 1 + c + 3 + 1) buf).
  { unfold slice. apply take_ge. rewrite length_drop. lia. }
  rewrite <- Hslice. unfold record_at. cbv zeta. rewrite E1. cbn.
  destruct (decode (slice buf (s + 4 + 1) (s + 4 + 1 + n))); [|done]. cbn.
  rewrite E2. cbn.
  destruct (decode (slice buf (s + 4 + 1 + n + 1 + 1) (s + 4 + 1 + n + 1 + 1 + c)));
    [|done]. cbn.
  by rewrite E3.
Qed.

Lemma products_parse_loop_all_ok (buf : bytes) (l : list nat) :
  (∀ s, s ∈ l → ∃ r, record_at buf s = Ok r) →
  ∀ m, ∃ m', products_parse_loop buf l m = Ok m'.
Proof.
  induction l as [|s l IH]; intros Hl m; simpl; [eauto|].
  destruct (Hl s) as [r Hr]; [by left|].
  rewrite products_parse_body_record, Hr. simpl. apply IH.
  intros s' Hs'. apply Hl. by right.
Qed.

(** A plain ASCII buffer in which every match has its three length bytes is
    parsed without error, wherever it ends. *)
Lemma products_parse_ascii_ok (buf : bytes) :
  Forall is_ascii buf →
  (∀ s, s ∈ finditer buf → ∃ e, record_extent buf s = Ok e) →
  ∃ products, (products_parse (open_rb buf)).1 = Ok products.
Proof.
  intros Hascii Hext. rewrite products_parse_open.
  apply products_parse_loop_all_ok. intros s Hs.
  destruct (Hext s Hs) as [e He].
  destruct (record_at buf s) as [r|ex] eqn:Er; [eauto|].
  destruct (record_at_raises _ _ _ Er) as [->| ->].
  - by destruct (record_at_no_IndexError buf s e He).
  - by destruct (record_at_ascii buf s Hascii).
Qed.

(** C2, as the code has it, for a match whose fields reach beyond the end of
    the buffer.  When the buffer ends before a length byte that the loop reads
    for the match, [products_parse] raises and returns no mapping; the
    exception is [IndexError], or [UnicodeDecodeError] when a field read
    earlier does not decode, and it is [IndexError] when the buffer is plain
    ASCII.  When the three length bytes are there, the buffer ends inside the
    path, and this is not detected: the record is read as if the path were all
    that is left of the buffer, so that only a field that does not decode makes
    it raise; and a plain ASCII buffer in which every match has its three
    length bytes is parsed without error. *)
Theorem products_parse_truncated (buf : bytes) (s : nat) :
  s ∈ finditer buf →
  cut_short buf s →
  (record_extent buf s = Raise IndexError →
   ((products_parse (open_rb buf)).1 = Raise IndexError
    ∨ (products_parse (open_rb buf)).1 = Raise UnicodeDecodeError)
   ∧ (Forall is_ascii buf → (products_parse (open_rb buf)).1 = Raise IndexError))
  ∧ (∀ e, record_extent buf s = Ok e →
     ∃ n c o,
       index buf (s + 4) = Ok n
       ∧ index buf (s + 4 + 1 + n + 1) = Ok c
       ∧ o = s + 4 + 1 + n + 1 + 1 + c + 3 + 1
       ∧ index buf (o - 1) = Ok (e - o)
       ∧ o ≤ length buf < e
       ∧ record_at buf s
         = (name ← decode (slice buf (s + 4 + 1) (s + 4 + 1 + n));
            code ← decode (slice buf (s + 4 + 1 + n + 1 + 1)
                             (s + 4 + 1 + n + 1 + 1 + c));
            path ← decode (drop o buf);
            Ok {| gameid := name; path := path; code := code |})
       ∧ (Forall is_ascii buf →
          (∀ s', s' ∈ finditer buf → ∃ e', record_extent buf s' = Ok e') →
          ∃ products r,
            (products_parse (open_rb buf)).1 = Ok products
            ∧ record_at buf s = Ok r
            ∧ path r = string_of_list_byte (drop o buf))).
Proof.
  intros Hs Hcut. split.
  - intros Hext. rewrite products_parse_open.
    destruct (products_parse_loop buf (finditer buf) ∅) as [m|e] eqn:E.
    + apply products_parse_loop_ok in E as (rs & Hrs & _).
      apply list_elem_of_lookup in Hs as [i Hi].
      destruct (Forall2_lookup_l _ _ _ _ _ Hrs Hi) as (r & _ & Hr).
      apply record_at_extent in Hr as [e He]. congruence.
    + pose proof (products_parse_loop_raise_at _ _ _ _ E) as (s' & _ & Hs').
      destruct (record_at_raises _ _ _ Hs') as [->| ->].
      * split; [by left|done].
      * split; [by right|]. intros Hascii. by destruct (record_at_ascii buf s' Hascii).
  - intros e He. unfold cut_short in Hcut. rewrite He in Hcut.
    destruct (record_at_cut_path buf s e He Hcut)
      as (n & c & o & Hn & Hc & Ho & Hidx & Hle & Hrec).
    exists n, c, o. do 4 (split; [done|]). split; [lia|]. split; [done|].
    intros Hascii Hext.
    destruct (products_parse_ascii_ok buf Hascii Hext) as [products Hp].
    pose proof (record_at_ascii buf s Hascii) as Hnd.
    pose proof (record_at_no_IndexError buf s e He) as Hni.
    destruct (record_at buf s) as [r|ex] eqn:Er.
    + exists products, r. split; [done|]. split; [done|].
      symmetry in Hrec. unfold mbind, result_bind, decode in Hrec.
      repeat (case_match; simplify_eq). done.
    + destruct (record_at_raises _ _ _ Er) as [->| ->]; done.
Qed.

(** ** Well-formed databases *)

(** The bytes of one record as [products_parse] reads them: the anchor with its
    two free bytes, then the name, the code and the path, each after its
    length byte, with one byte skipped before the code and three before the
    path. *)
Record RawRecord : Type := mkRaw {
  wild1 : byte;
  wild2 : byte;
  raw_name : bytes;
  skip1 : byte;
  raw_code : bytes;
  skip2 : byte;
  skip3 : byte;
  skip4 : byte;
  raw_path : bytes
}.

Definition length_byte (n : nat) : byte := default x00 (Byte.of_N (N.of_nat n)).

Definition encode_record (r : RawRecord) : bytes :=
  [x0a; wild1 r; wild2 r; x0a]
  ++ length_byte (length (raw_name r)) :: raw_name r
  ++ skip1 r :: length_byte (length (raw_code r)) :: raw_code r
  ++ skip2 r :: skip3 r :: skip4 r :: length_byte (length (raw_path r)) :: raw_path r.

(** A record is well formed when its free anchor bytes are not newlines, each
    field fits its length byte and each field is UTF-8. *)
Definition well_formed (r : RawRecord) : Prop :=
  dot (wild1 r) = true ∧ dot (wild2 r) = true
  ∧ length (raw_name r) < 256 ∧ length (raw_code r) < 256 ∧ length (raw_path r) < 256
  ∧ utf8_valid (raw_name r) = true ∧ utf8_valid (raw_code r) = true
  ∧ utf8_valid (raw_path r) = true.

(** The entry a record stands for. *)
Definition entry_of (r : RawRecord) : Product :=
  {| gameid := string_of_list_byte (raw_name r);
     path := string_of_list_byte (raw_path r);
     code := string_of_list_byte (raw_code r) |}.

(** A database: records, each after some bytes that belong to no record, and
    the bytes after the last one. *)
Fixpoint database (items : list (bytes * RawRecord)) (rest : bytes) : bytes :=
  match items with
  | [] => rest
  | (gap, r) :: items' => gap ++ encode_record r ++ database items' rest
  end.

(** The offsets at which the records start, for a database that starts at
    offset [pos]. *)
Fixpoint record_starts (pos : nat) (items : list (bytes * RawRecord)) : list nat :=
  match items with
  | [] => []
  | (gap, r) :: items' =>
    (pos + length gap)
    :: record_starts (pos + length gap + length (encode_record r)) items'
  end.

(** Reading at a cursor: what [buf[off]] and [buf[off:off+n]] are when the
    bytes from [off] on are known. *)
Lemma index_cursor (buf rest : bytes) (off : nat) (b : byte) :
  drop off buf = b :: rest →
  index buf off = Ok (N.to_nat (Byte.to_N b)) ∧ drop (off + 1) buf = rest.
Proof.
  intros H. split.
  - pose proof (lookup_drop buf off 0) as L.
    rewrite H, Nat.add_0_r in L. unfold index. by rewrite <- L.
  - by rewrite <- drop_drop, H.
Qed.

Lemma slice_cursor (buf mid rest : bytes) (off : nat) :
  drop off buf = mid ++ rest →
  slice buf off (off + length mid) = mid ∧ drop (off + length mid) buf = rest.
Proof.
  intros H. split.
  - unfold slice. replace (off + length mid - off) with (length mid) by lia.
    by rewrite H, take_app_length.
  - by rewrite <- drop_drop, H, drop_app_length.
Qed.

Lemma length_byte_value (n : nat) :
  n < 256 → N.to_nat (Byte.to_N (length_byte n)) = n.
Proof.
  intros Hn. unfold length_byte.
  destruct (Byte.of_N (N.of_nat n)) as [b|] eqn:E; simpl.
  - apply Byte.to_of_N in E. rewrite E. lia.
  - apply Byte.of_N_None_iff in E. lia.
Qed.

Lemma decode_valid (bs : bytes) :
  utf8_valid bs = true → decode bs = Ok (string_of_list_byte bs).
Proof. unfold decode. by intros ->. Qed.

(** One statement of a [result] computation has returned. *)
Ltac next := unfold mbind at 1; unfold result_bind at 1; cbv beta iota.

(** The record that starts where the bytes of a well-formed record start is
    that record. *)
Lemma record_at_encode (pre post : bytes) (r : RawRecord) :
  well_formed r →
  record_at (pre ++ encode_record r ++ post) (length pre) = Ok (entry_of r).
Proof.
  intros (_ & _ & Hn & Hc & Hp & Vn & Vc & Vp).
  set (buf := pre ++ encode_record r ++ post).
  assert (D0 : drop (length pre + 4) buf
               = length_byte (length (raw_name r)) :: raw_name r
                 ++ skip1 r :: length_byte (length (raw_code r)) :: raw_code r
                 ++ skip2 r :: skip3 r :: skip4 r
                 :: length_byte (length (raw_path r)) :: raw_path r ++ post).
  { subst buf. rewrite <- drop_drop, drop_app_length. unfold encode_record.
    simpl. by repeat (rewrite <- app_assoc; simpl). }
  unfold record_at. cbv zeta.
  apply index_cursor in D0 as [-> D1]. rewrite length_byte_value by done. next.
  apply slice_cursor in D1 as [-> D2]. rewrite decode_valid by done. next.
  apply (index_cursor _ _ _ _) in D2 as [_ D3].
  apply index_cursor in D3 as [-> D4]. rewrite length_byte_value by done. next.
  apply slice_cursor in D4 as [-> D5]. rewrite decode_valid by done. next.
  apply (index_cursor _ _ _ _) in D5 as [_ D6].
  apply (index_cursor _ _ _ _) in D6 as [_ D7].
  apply (index_cursor _ _ _ _) in D7 as [_ D8].
  replace (length pre + 4 + 1 + length (raw_name r) + 1 + 1 + length (raw_code r) + 3)
    with (length pre + 4 + 1 + length (raw_name r) + 1 + 1 + length (raw_code r) + 1 + 1 + 1)
    by lia.
  apply index_cursor in D8 as [-> D9]. rewrite length_byte_value by done. next.
  apply slice_cursor in D9 as [-> _]. by rewrite decode_valid by done.
Qed.

Lemma length_encode_record (r : RawRecord) :
  length (encode_record r)
  = 11 + length (raw_name r) + length (raw_code r) + length (raw_path r).
Proof.
  unfold encode_record. simpl. rewrite length_app. simpl. rewrite length_app. simpl. lia.
Qed.

Lemma record_starts_lower (items : list (bytes * RawRecord)) :
  ∀ pos s, s ∈ record_starts pos items → pos ≤ s.
Proof.
  induction items as [|[gap r] items IH]; intros pos s; simpl.
  - by intros ?%elem_of_nil.
  - intros [->|Hs%IH]%elem_of_cons; lia.
Qed.

Lemma record_starts_sorted (items : list (bytes * RawRecord)) :
  ∀ pos, StronglySorted apart (record_starts pos items).
Proof.
  induction items as [|[gap r] items IH]; intros pos; cbn [record_starts];
    constructor; [done|].
  apply Forall_forall. intros s Hs%record_starts_lower.
  rewrite length_encode_record in Hs. lia.
Qed.

Lemma apart_sorted_lt (l : list nat) (a b : nat) :
  StronglySorted apart l → a ∈ l → b ∈ l → a < b → a + 4 ≤ b.
Proof.
  induction 1 as [|x l _ IH Hx]; [by intros ?%elem_of_nil|].
  rewrite Forall_forall in Hx.
  intros [->|Ha]%elem_of_cons [->|Hb]%elem_of_cons Hlt; [lia|auto| |auto].
  apply Hx in Ha. lia.
Qed.

Lemma apart_sorted_NoDup (l : list nat) : StronglySorted apart l → NoDup l.
Proof.
  induction 1 as [|x l _ IH Hx]; constructor; [|done].
  rewrite Forall_forall in Hx. intros Hin%Hx. lia.
Qed.

Lemma database_cons_assoc (pre gap : bytes) (r : RawRecord)
    (items : list (bytes * RawRecord)) (rest : bytes) :
  pre ++ database ((gap, r) :: items) rest
  = (pre ++ gap ++ encode_record r) ++ database items rest.
Proof. cbn [database]. by rewrite <- !app_assoc. Qed.

(** In a database of well-formed records, each record is read where it
    starts, and it starts with the anchor. *)
Lemma records_at_starts (items : list (bytes * RawRecord)) (rest : bytes) :
  Forall well_formed items.*2 →
  ∀ pre,
    Forall2 (λ s r, record_at (pre ++ database items rest) s = Ok (entry_of r)
                    ∧ anchor_at (pre ++ database items rest) s = true)
      (record_starts (length pre) items) items.*2.
Proof.
  induction items as [|[gap r] items IH]; intros Hwf pre; [constructor|].
  apply Forall_cons in Hwf as [Hr Hwf]. cbn [snd] in Hr.
  cbn [record_starts fmap list_fmap snd].
  constructor.
  - replace (pre ++ database ((gap, r) :: items) rest)
      with ((pre ++ gap) ++ encode_record r ++ database items rest)
      by (cbn [database]; by rewrite <- !app_assoc).
    rewrite <- length_app. split; [by apply record_at_encode|].
    rewrite <- (Nat.add_0_r (length (pre ++ gap))), anchor_at_app_l.
    destruct Hr as (H1 & H2 & _). unfold anchor_at, encode_record, regex_product_db.
    simpl. by rewrite H1, H2.
  - rewrite database_cons_assoc.
    replace (length pre + length gap + length (encode_record r))
      with (length (pre ++ gap ++ encode_record r))
      by (rewrite !length_app; lia).
    by apply IH.
Qed.

(** When the anchor occurs at the record starts only, the scan finds the
    record starts. *)
Lemma finditer_database (items : list (bytes * RawRecord)) (rest : bytes) :
  Forall well_formed items.*2 →
  (∀ p, anchor_at (database items rest) p = true → p ∈ record_starts 0 items) →
  finditer (database items rest) = record_starts 0 items.
Proof.
  intros Hwf Hdelim.
  pose proof (records_at_starts items rest Hwf []) as Hrec. simpl in Hrec.
  pose proof (finditer_from_sorted (database items rest) 0) as Hsorted.
  assert (Hsound : ∀ s, s ∈ finditer (database items rest) →
                        anchor_at (database items rest) s = true).
  { intros s Hs. apply finditer_from_lower in Hs as [_ Ha].
    by rewrite Nat.sub_0_r in Ha. }
  pose proof (finditer_from_complete (database items rest) 0) as Hcomplete.
  pose proof (record_starts_sorted items 0) as Hstarts.
  assert (Hsub : ∀ s, s ∈ finditer (database items rest) → s ∈ record_starts 0 items).
  { intros s Hs. by apply Hdelim, Hsound. }
  apply (StronglySorted_unique_strong apart); [intros; lia|done|done|].
  apply NoDup_Permutation; [by apply apart_sorted_NoDup..|].
  intros s. split; [apply Hsub|]. intros Hs.
  assert (Ha : anchor_at (database items rest) s = true).
  { apply list_elem_of_lookup in Hs as [i Hi].
    by destruct (Forall2_lookup_l _ _ _ _ _ Hrec Hi) as (r & _ & _ & Ha). }
  destruct (Hcomplete s Ha) as [|(q & Hq & Hlt)]; [done|].
  pose proof (apart_sorted_lt _ q s Hstarts (Hsub q Hq) Hs). lia.
Qed.

Lemma foldl_store_lookup (rs : list Product) (r : Product) :
  NoDup (gameid <$> rs) → r ∈ rs → foldl store ∅ rs !! gameid r = Some r.
Proof.
  intros Hnd (rs1 & rs2 & ->)%list_elem_of_split.
  rewrite foldl_store_app. cbn [foldl]. apply foldl_store_last.
  - unfold store. apply lookup_insert_eq.
  - rewrite fmap_app, fmap_cons in Hnd.
    apply NoDup_app in Hnd as (_ & _ & Hnd). apply NoDup_cons in Hnd as [Hr _].
    intros r' Hr' E. apply Hr. rewrite <- E. by apply list_elem_of_fmap_2.
Qed.

(** C1: a buffer made of N well-formed records, with any bytes between them
    and after them, in which the anchor occurs at the start of the records and
    nowhere else, and whose N gameids are distinct, is parsed into a mapping of
    exactly N entries; the entry under the gameid of a record holds the
    decoded name, path and code of that record, and encoding its path and code
    gives back the bytes of the record. *)
Theorem products_parse_round_trip (items : list (bytes * RawRecord)) (rest : bytes) :
  Forall well_formed items.*2 →
  (∀ p, anchor_at (database items rest) p = true → p ∈ record_starts 0 items) →
  NoDup (gameid <$> (entry_of <$> items.*2)) →
  ∃ products : gmap string Product,
    (products_parse (open_rb (database items rest))).1 = Ok products
    ∧ size products = length items
    ∧ ∀ r, r ∈ items.*2 →
        products !! string_of_list_byte (raw_name r)
        = Some {| gameid := string_of_list_byte (raw_name r);
                  path := string_of_list_byte (raw_path r);
                  code := string_of_list_byte (raw_code r) |}
        ∧ list_byte_of_string (string_of_list_byte (raw_path r)) = raw_path r
        ∧ list_byte_of_string (string_of_list_byte (raw_code r)) = raw_code r.
Proof.
  intros Hwf Hdelim Hnd.
  exists (foldl store ∅ (entry_of <$> items.*2)). split; [|split].
  - rewrite products_parse_open, finditer_database by done.
    apply products_parse_loop_records, Forall2_fmap_r.
    pose proof (records_at_starts items rest Hwf []) as Hrec. simpl in Hrec.
    eapply Forall2_impl; [exact Hrec|]. by intros s r [? _].
  - rewrite foldl_store_size; [|done|by intros].
    by rewrite map_size_empty, !length_fmap.
  - intros r Hr. split; [|by rewrite !list_byte_of_string_of_list_byte].
    apply (foldl_store_lookup _ (entry_of r)); [done|].
    by apply list_elem_of_fmap_2.
Qed.

(** * Examples *)

(** The anchor occurs at the given offsets only: a test that computes. *)
Definition anchors_only_at (buf : bytes) (starts : list nat) : bool :=
  forallb (λ p, implb (anchor_at buf p) (bool_decide (p ∈ starts)))
    (seq 0 (length buf)).

Lemma anchors_only_at_spec (buf : bytes) (starts : list nat) :
  anchors_only_at buf starts = true →
  ∀ p, anchor_at buf p = true → p ∈ starts.
Proof.
  unfold anchors_only_at. rewrite forallb_forall. intros H p Hp.
  pose proof (anchor_at_length _ _ Hp) as Hlen.
  specialize (H p). rewrite Hp in H. simpl in H.
  eapply bool_decide_eq_true_1, H, in_seq. lia.
Qed.

(** A database of two records, laid out as Battle.net writes them. *)
Definition bnet_record : RawRecord := {|
  wild1 := x52; wild2 := x01;
  raw_name := list_byte_of_string "battle.net";
  skip1 := x12;
  raw_code := list_byte_of_string "bna";
  skip2 := x1a; skip3 := x20; skip4 := x0a;
  raw_path := list_byte_of_string "C:/Program Files/Battle.net"
|}.

Definition overwatch_record : RawRecord := {|
  wild1 := x4d; wild2 := x01;
  raw_name := list_byte_of_string "prometheus";
  skip1 := x12;
  raw_code := list_byte_of_string "Pro";
  skip2 := x1a; skip3 := x17; skip4 := x0a;
  raw_path := list_byte_of_string "C:/Games/Overwatch"
|}.

Definition example_items : list (bytes * RawRecord) :=
  [([], bnet_record); ([x22; x04; x65; x6e; x55; x53; x28; x01], overwatch_record)].

Definition example_database : bytes := database example_items [x30; x01].

Lemma example_well_formed : Forall well_formed example_items.*2.
Proof. repeat constructor. Defined.

Lemma example_anchors :
  ∀ p, anchor_at (database example_items [x30; x01]) p = true →
       p ∈ record_starts 0 example_items.
Proof. apply anchors_only_at_spec. vm_compute. reflexivity. Defined.

Lemma example_distinct : NoDup (gameid <$> (entry_of <$> example_items.*2)).
Proof. apply (bool_decide_unpack _). vm_compute. reflexivity. Defined.

Lemma products_parse_round_trip_witness :
  ∃ products : gmap string Product,
    (products_parse (open_rb example_database)).1 = Ok products
    ∧ size products = 2
    ∧ products !! "prometheus"
      = Some {| gameid := "prometheus"; path := "C:/Games/Overwatch"; code := "Pro" |}.
Proof.
  destruct (products_parse_round_trip example_items [x30; x01]
              example_well_formed example_anchors example_distinct)
    as (products & Hparse & Hsize & Hentries).
  exists products. split; [exact Hparse|]. split; [exact Hsize|].
  apply (Hentries overwatch_record). right. left.
Defined.

(** C1 as the specification has it: well-formed records with distinct gameids
    are parsed into as many entries, wherever the anchor occurs. *)
Definition round_trip_of_well_formed (items : list (bytes * RawRecord)) (rest : bytes)
    : Prop :=
  Forall well_formed items.*2 →
  NoDup (gameid <$> (entry_of <$> items.*2)) →
  ∃ products : gmap string Product,
    (products_parse (open_rb (database items rest))).1 = Ok products
    ∧ size products = length items.

(** A well-formed record whose path holds the anchor: the scan finds a second
    match in the path, and the length byte of its name lies beyond the end of
    the buffer. *)
Definition anchor_path_record : RawRecord := {|
  wild1 := x01; wild2 := x02;
  raw_name := [x64]; skip1 := x00; raw_code := [x31];
  skip2 := x00; skip3 := x00; skip4 := x00;
  raw_path := [x0a; x41; x42; x0a]
|}.

Lemma products_parse_anchor_in_path :
  well_formed anchor_path_record
  ∧ finditer (database [([], anchor_path_record)] []) = [0; 13]
  ∧ record_at (database [([], anchor_path_record)] []) 0
    = Ok (entry_of anchor_path_record)
  ∧ (products_parse (open_rb (database [([], anchor_path_record)] []))).1
    = Raise IndexError
  ∧ ¬ round_trip_of_well_formed [([], anchor_path_record)] [].
Proof.
  assert (Hwf : well_formed anchor_path_record)
    by (repeat split; vm_compute; (reflexivity || lia)).
  split; [exact Hwf|]. split; [reflexivity|]. split; [reflexivity|].
  split; [reflexivity|].
  intros H. destruct H as (products & Hp & _).
  - by repeat constructor.
  - apply NoDup_singleton.
  - discriminate Hp.
Qed.

(** A buffer that ends in the middle of the name: the length byte announces
    five bytes, two are there. *)
Definition cut_in_name : bytes := [x0a; x01; x02; x0a; x05; x61; x62].

Lemma products_parse_truncated_witness :
  0 ∈ finditer cut_in_name
  ∧ cut_short cut_in_name 0
  ∧ record_extent cut_in_name 0 = Raise IndexError
  ∧ (products_parse (open_rb cut_in_name)).1 = Raise IndexError.
Proof.
  assert (H0 : 0 ∈ finditer cut_in_name) by (vm_compute; left).
  assert (H1 : cut_short cut_in_name 0) by exact I.
  assert (H2 : record_extent cut_in_name 0 = Raise IndexError) by reflexivity.
  split; [exact H0|]. split; [exact H1|]. split; [exact H2|].
  apply (proj1 (products_parse_truncated cut_in_name 0 H0 H1) H2).
  repeat constructor.
Defined.

(** A buffer that ends in the middle of the path, the last field: the length
    byte announces five bytes, two are there.  It is parsed, with the two bytes
    as the path. *)
Definition cut_in_path : bytes :=
  [x0a; x01; x02; x0a; x01; x64; x12; x00; x1a; x05; x0a; x05; x41; x42].

Lemma products_parse_cut_in_path :
  0 ∈ finditer cut_in_path
  ∧ record_extent cut_in_path 0 = Ok 17
  ∧ length cut_in_path = 14
  ∧ (∃ products,
       (products_parse (open_rb cut_in_path)).1 = Ok products
       ∧ products !! "d" = Some {| gameid := "d"; path := "AB"; code := "" |})
  ∧ ¬ truncation_detected cut_in_path.
Proof.
  assert (H0 : 0 ∈ finditer cut_in_path) by (vm_compute; left).
  assert (Hp : ∃ products,
             (products_parse (open_rb cut_in_path)).1 = Ok products
             ∧ products !! "d" = Some {| gameid := "d"; path := "AB"; code := "" |}).
  { eexists. split; [vm_compute; reflexivity|]. vm_compute. reflexivity. }
  repeat split; try done.
  intros H. destruct (H 0 H0) as [e He]; [unfold cut_short; simpl; lia|].
  destruct Hp as (products & Hp & _). congruence.
Qed.

(** The same buffer ending in the middle of a two-byte character: the path
    does not decode. *)
Definition cut_in_character : bytes :=
  [x0a; x01; x02; x0a; x01; x64; x12; x00; x1a; x05; x0a; x05; x41; xc3].

Lemma products_parse_cut_in_character :
  record_extent cut_in_character 0 = Ok 17
  ∧ (products_parse (open_rb cut_in_character)).1 = Raise UnicodeDecodeError.
Proof. split; reflexivity. Qed.





(** A disk with the example database in the default prefix, and an Overwatch
    game set to start without the Battle.net client. *)
Definition example_world : World := {|
  fs := {[ "/r/winebattlenet/prefix/drive_c/ProgramData/Battle.net/Agent/product.db"
           := File example_database ]};
  trace := []
|}.

Definition example_runner : winebattlenet := {|
  config := Some {|
    cfg_game_config := {[ "gameid" := VStr "prometheus" ]};
    cfg_runner_config := {[ "run_without_bnet" := VBool true ]}
  |}
|}.

Definition example_products : gmap string Product :=
  {[ "battle.net" := {| gameid := "battle.net"; path := "C:/Program Files/Battle.net";
                        code := "bna" |};
     "prometheus" := {| gameid := "prometheus"; path := "C:/Games/Overwatch";
                        code := "Pro" |} ]}.

Lemma play_missing_directory_witness :
  ∃ w' : World,
    play example_externals example_runner example_world
    = (Ok (PlayError "DIR_NOT_FOUND" "C:/Games/Overwatch"), w').
Proof.
  apply (play_missing_directory example_externals example_runner example_world
           (prefix_path example_externals example_runner example_world).2
           example_products
           {| gameid := "prometheus"; path := "C:/Games/Overwatch"; code := "Pro" |}
           "/r/winebattlenet/prefix").
  - reflexivity.
  - vm_compute. reflexivity.
  - vm_compute. reflexivity.
  - vm_compute. reflexivity.
  - vm_compute. reflexivity.
Defined.

Lemma products_parse_deterministic_witness :
  (products_parse (open_rb example_database)).1
    = (products_parse {| f_data := x00 :: example_database; f_pos := 1 |}).1
  ∧ fs (get_bnet_games example_externals example_world).2 = fs example_world
  ∧ (get_bnet_games example_externals
       (get_bnet_games example_externals example_world).2).1
    = (get_bnet_games example_externals example_world).1.
Proof.
  destruct (products_parse_deterministic example_externals
              (open_rb example_database)
              {| f_data := x00 :: example_database; f_pos := 1 |}
              example_world example_world eq_refl eq_refl)
    as (H1 & H2 & H3 & _).
  split; [exact H1|]. split; [exact H2|exact H3].
Defined.

(** A database without the ['battle.net'] record, with two records of the same
    gameid: the later one is kept, and [read_config] returns [None]. *)
Definition duplicate_database : bytes :=
  [x0a; x01; x02; x0a; x01; x64; x12; x01; x31; x1a; x05; x0a; x02; x41; x3a;
   x0a; x01; x02; x0a; x01; x64; x12; x01; x32; x1a; x05; x0a; x02; x42; x3a].

Lemma read_config_root_entry_witness :
  (read_config "product.db"
     {| fs := {[ "product.db" := File duplicate_database ]}; trace := [] |}).1
    = Ok None
  ∧ ∃ products,
      (products_parse (open_rb duplicate_database)).1 = Ok products
      ∧ products !! "d" = Some {| gameid := "d"; path := "B:"; code := "2" |}.
Proof.
  destruct read_config_root_entry as [Hroot Hlast].
  assert (Hparse : ∃ products,
            (products_parse (open_rb duplicate_database)).1 = Ok products
            ∧ products !! "battle.net" = None).
  { eexists. split; vm_compute; reflexivity. }
  destruct Hparse as (products & Hparse & Hnone). split.
  - apply (Hroot "product.db" _ duplicate_database products); [reflexivity|exact Hparse|exact Hnone].
  - exists products. split; [exact Hparse|].
    apply (Hlast duplicate_database products [0] [] 15
             {| gameid := "d"; path := "B:"; code := "2" |});
      [exact Hparse|reflexivity|reflexivity|].
    intros s' r' Hs'. by apply elem_of_nil in Hs'.
Defined.

(** * Further properties of [bnet.py] *)

Lemma foldl_store_inv (P : string → Product → Prop) (rs : list Product) :
  ∀ m : gmap string Product,
    (∀ k e, m !! k = Some e → P k e) →
    (∀ r, r ∈ rs → P (gameid r) r) →
    ∀ k e, foldl store m rs !! k = Some e → P k e.
Proof.
  induction rs as [|r rs IH]; intros m Hm Hrs k e; simpl; [apply Hm|].
  apply IH.
  - intros k' e'. unfold store. rewrite lookup_insert.
    case_decide as Hk; [|apply Hm]. intros [= <-]. subst k'. apply Hrs. by left.
  - intros r' Hr'. apply Hrs. by right.
Qed.

Lemma foldl_store_size_le (rs : list Product) :
  ∀ m : gmap string Product, size (foldl store m rs) ≤ size m + length rs.
Proof.
  induction rs as [|r rs IH]; intros m; simpl; [lia|].
  etrans; [apply IH|]. unfold store.
  destruct (m !! gameid r) as [e|] eqn:E.
  - rewrite map_size_insert_Some by done. lia.
  - rewrite map_size_insert_None by done. lia.
Qed.

(** X1: every entry of the mapping [products_parse] returns is stored under its
    own gameid and is the record read at one of the matches; the mapping has at
    most one entry per match. *)
Theorem products_parse_entries (buf : bytes) (products : gmap string Product) :
  (products_parse (open_rb buf)).1 = Ok products →
  size products ≤ length (finditer buf)
  ∧ ∀ k e, products !! k = Some e →
      gameid e = k ∧ ∃ s, s ∈ finditer buf ∧ record_at buf s = Ok e.
Proof.
  rewrite products_parse_open. intros (rs & Hrs & ->)%products_parse_loop_ok. split.
  - etrans; [apply foldl_store_size_le|].
    rewrite map_size_empty. by rewrite (Forall2_length _ _ _ Hrs).
  - apply foldl_store_inv.
    + intros k e. by rewrite lookup_empty.
    + intros r Hr. split; [done|]. apply list_elem_of_lookup in Hr as [i Hi].
      destruct (Forall2_lookup_r _ _ _ _ _ Hrs Hi) as (s & Hs & Hrec).
      exists s. split; [by eapply list_elem_of_lookup_2|done].
Qed.

Lemma products_parse_entries_witness :
  ∃ products : gmap string Product,
    (products_parse (open_rb duplicate_database)).1 = Ok products
    ∧ size products ≤ length (finditer duplicate_database).
Proof.
  assert (H : ∃ products, (products_parse (open_rb duplicate_database)).1 = Ok products).
  { eexists. vm_compute. reflexivity. }
  destruct H as [products H]. exists products. split; [exact H|].
  exact (proj1 (products_parse_entries duplicate_database products H)).
Defined.

Lemma finditer_from_no_newline (buf : bytes) :
  x0a ∉ buf → ∀ pos, finditer_from pos buf = [].
Proof.
  induction buf as [|b0 tl IH]; intros Hnl pos; [done|].
  apply not_elem_of_cons in Hnl as [Hb0 Htl]. cbn [finditer_from].
  rewrite (IH Htl). destruct tl as [|b1 [|b2 [|b3 tl']]]; try done.
  unfold regex_product_db. destruct (Byte.eqb b0 x0a) eqn:E; [|done].
  by apply Byte.byte_dec_bl in E.
Qed.

(** X2: a buffer without a newline byte, the empty buffer among them, has no
    match and is parsed into the empty mapping; [read_config] on such a file
    logs the error and returns [None]. *)
Theorem read_config_no_newline (p : string) (w : World) (data : bytes) :
  fs w !! p = Some (File data) →
  x0a ∉ data →
  (products_parse (open_rb data)).1 = Ok ∅
  ∧ read_config p w
    = (Ok None,
       mkWorld (fs w) (trace w ++ [Log ERROR "Battle.net config %s is empty: %s"])).
Proof.
  intros Hp Hnl.
  assert (Hparse : (products_parse (open_rb data)).1 = Ok ∅).
  { rewrite products_parse_open. unfold finditer.
    by rewrite finditer_from_no_newline. }
  split; [done|]. unfold read_config.
  unfold mbind, M_bind, os_path_exists, open_file_rb, lift.
  rewrite Hp. cbn -[products_parse]. by rewrite Hp, Hparse.
Qed.

Lemma read_config_no_newline_witness :
  let w := mkWorld {[ "product.db" := File [] ]} [] in
  read_config "product.db" w
  = (Ok None, mkWorld (fs w) [Log ERROR "Battle.net config %s is empty: %s"]).
Proof.
  intros w.
  exact (proj2 (read_config_no_newline "product.db" w [] eq_refl
                  (not_elem_of_nil x0a))).
Defined.

(** X3: the exception of the first match that cannot be read leaves
    [products_parse]: the entries of the matches before it are not returned,
    the matches after it are not looked at. *)
Theorem products_parse_first_failure (buf : bytes) (before after : list nat)
    (s : nat) (e : exn) :
  finditer buf = before ++ s :: after →
  (∀ s', s' ∈ before → ∃ r, record_at buf s' = Ok r) →
  record_at buf s = Raise e →
  (products_parse (open_rb buf)).1 = Raise e.
Proof.
  intros Hsplit Hbefore Hs. rewrite products_parse_open, Hsplit. clear Hsplit.
  generalize (∅ : gmap string Product).
  induction before as [|s0 before IH]; intros m; cbn [app products_parse_loop].
  - rewrite products_parse_body_record, Hs. done.
  - destruct (Hbefore s0) as [r Hr]; [by left|].
    rewrite products_parse_body_record, Hr. cbn. apply IH.
    intros s' Hs'. apply Hbefore. by right.
Qed.

(** A good record followed by a record whose name is not UTF-8. *)
Definition bad_name_database : bytes :=
  [x0a; x01; x02; x0a; x01; x64; x12; x01; x31; x1a; x05; x0a; x02; x41; x3a;
   x0a; x01; x02; x0a; x01; xff; x12; x01; x32; x1a; x05; x0a; x02; x42; x3a].

Lemma products_parse_first_failure_witness :
  (products_parse (open_rb bad_name_database)).1 = Raise UnicodeDecodeError.
Proof.
  apply (products_parse_first_failure bad_name_database [0] [] 15).
  - reflexivity.
  - intros s' Hs'. apply list_elem_of_singleton in Hs' as ->.
    eexists. vm_compute. reflexivity.
  - reflexivity.
Defined.

Lemma read_config_some (p : string) (w : World) (config : gmap string Product) :
  (read_config p w).1 = Ok (Some config) →
  (∃ data, fs w !! p = Some (File data)
           ∧ (products_parse (open_rb data)).1 = Ok config)
  ∧ is_Some (config !! "battle.net")
  ∧ (read_config p w).2 = w.
Proof.
  unfold read_config, mbind, M_bind, os_path_exists, open_file_rb, lift.
  destruct (fs w !! p) as [[data|]|] eqn:Hp;
    cbn -[products_parse]; rewrite ?Hp; cbn -[products_parse]; try done.
  destruct ((products_parse (open_rb data)).1) as [m|e] eqn:Hparse; [|done].
  unfold subscript. destruct (m !! "battle.net") as [e|] eqn:Hroot; cbn; [|done].
  intros [= <-]. rewrite Hroot. eauto.
Qed.

(** X4: when [read_config] returns a mapping, the path names a regular file,
    the mapping is what [products_parse] makes of its content, it has the
    ['battle.net'] entry, and nothing was logged or changed. *)
Theorem read_config_sound (p : string) (w : World) (config : gmap string Product) :
  (read_config p w).1 = Ok (Some config) →
  (∃ data, fs w !! p = Some (File data)
           ∧ (products_parse (open_rb data)).1 = Ok config)
  ∧ is_Some (config !! "battle.net")
  ∧ (read_config p w).2 = w.
Proof. apply read_config_some. Qed.

Lemma read_config_sound_witness :
  is_Some (example_products !! "battle.net")
  ∧ (read_config "product.db" (mkWorld {[ "product.db" := File example_database ]} [])).2
    = mkWorld {[ "product.db" := File example_database ]} [].
Proof.
  assert (H : (read_config "product.db"
                 (mkWorld {[ "product.db" := File example_database ]} [])).1
              = Ok (Some example_products)) by (vm_compute; reflexivity).
  destruct (read_config_sound _ _ _ H) as (_ & H1 & H2). split; [exact H1|exact H2].
Defined.

(** X5: [products_parse] reads the file object to its end: a second call on the
    same object finds nothing left and returns the empty mapping, whatever the
    file holds. *)
Theorem products_parse_consumes_file (file : FileObj) :
  (products_parse (products_parse file).2).1 = Ok ∅
  ∧ (file_read (products_parse file).2).1 = [].
Proof.
  unfold products_parse, file_read. cbn. by rewrite drop_all.
Qed.

(** * The games of the product database ([winebattlenet.py]) *)

Section Queries.
Context (X : Externals).

(** The path [get_bnet_games] reads. *)
Definition product_db_path : string :=
  os_path_join (get_default_prefix X VNone)
    ["drive_c/ProgramData/Battle.net/Agent/product.db"].

(** [get_gameid_list]: the keys of the mapping, [None] when there is no
    mapping or an empty one. *)
Definition get_gameid_list : M (option (gset string)) :=
  bnet_config ← get_bnet_games X;
  match bnet_config with
  | Some bnet_config =>
    if bool_decide (size bnet_config ≠ 0) then mret (Some (dom bnet_config))
    else mret None
  | None => mret None
  end.

(** [get_game_path_from_gameid]: the [KeyError] of the lookup is caught and
    logged, the [TypeError] of subscripting [None] is not. *)
Definition get_game_path_from_gameid (gameid : pyval) : M (option string) :=
  bnet_config ← get_bnet_games X;
  match
    match bnet_config with
    | Some bnet_config => subscript bnet_config gameid
    | None => Raise TypeError
    end
  with
  | Ok entry => mret (Some (path entry))
  | Raise (KeyError _) =>
    _ ← emit (Log WARNING "Data path for Battle.net game %s not found: %s");
    mret None
  | Raise e => raise e
  end.

(** The [game_path] property of [winebattlenet]. *)
Definition game_path (self : winebattlenet) : M (option string) :=
  if negb (truthy (runner_gameid self)) then mret None
  else get_game_path_from_gameid (runner_gameid self).

(** The [working_dir] property of [winebattlenet]. *)
Definition working_dir (self : winebattlenet) : M (option string) :=
  run_without_bnet ← lift (subscript (runner_config X self) (VStr "run_without_bnet"));
  if bool_decide (run_without_bnet = VBool true) then game_path self
  else mret (Some (expanduser X "~/")).

Lemma get_bnet_games_unfold (w : World) :
  get_bnet_games X w
  = match fs w !! product_db_path with
    | Some _ => read_config product_db_path w
    | None => (Ok None, w)
    end.
Proof.
  unfold get_bnet_games. fold product_db_path.
  unfold mbind, M_bind, os_path_exists.
  by destruct (fs w !! product_db_path).
Qed.

Lemma get_bnet_games_missing (w : World) :
  fs w !! product_db_path = None → get_bnet_games X w = (Ok None, w).
Proof. intros H. by rewrite get_bnet_games_unfold, H. Qed.

Lemma get_bnet_games_sound (w : World) (config : gmap string Product) :
  (get_bnet_games X w).1 = Ok (Some config) →
  get_bnet_games X w = (Ok (Some config), w)
  ∧ is_Some (config !! "battle.net")
  ∧ ∃ data, fs w !! product_db_path = Some (File data)
            ∧ (products_parse (open_rb data)).1 = Ok config.
Proof.
  rewrite get_bnet_games_unfold.
  destruct (fs w !! product_db_path) as [n|] eqn:Hp; [|done].
  intros H. destruct (read_config_some _ _ _ H) as ((data & Hd & Hparse) & Hroot & Hw).
  split; [|split; [done|]].
  - destruct (read_config product_db_path w) as [r w']. simpl in *. by subst.
  - exists data. split; [congruence|done].
Qed.

(** X6: without a product database on disk, looking a game up raises
    [TypeError]: [get_game_path_from_gameid] for every gameid, and with it the
    [game_path] of every runner that has a gameid.  Nothing is logged. *)
Theorem game_path_without_database (self : winebattlenet) (gameid : pyval) (w : World) :
  fs w !! product_db_path = None →
  truthy (runner_gameid self) = true →
  get_game_path_from_gameid gameid w = (Raise TypeError, w)
  ∧ game_path self w = (Raise TypeError, w).
Proof.
  intros Hdb Hid.
  assert (H : ∀ g, get_game_path_from_gameid g w = (Raise TypeError, w)).
  { intros g. unfold get_game_path_from_gameid, mbind, M_bind.
    by rewrite (get_bnet_games_missing w Hdb). }
  split; [apply H|]. unfold game_path. rewrite Hid. apply H.
Qed.

(** X7: with a product database on disk, [get_game_path_from_gameid] returns
    the path of the entry of the game, and for a game that has no entry it
    logs a warning and returns [None]; the disk is left as it is. *)
Theorem get_game_path_from_gameid_lookup (w : World) (config : gmap string Product)
    (gameid : string) :
  (get_bnet_games X w).1 = Ok (Some config) →
  get_game_path_from_gameid (VStr gameid) w
  = match config !! gameid with
    | Some entry => (Ok (Some (path entry)), w)
    | None =>
      (Ok None,
       mkWorld (fs w)
         (trace w ++ [Log WARNING "Data path for Battle.net game %s not found: %s"]))
    end.
Proof.
  intros H. apply get_bnet_games_sound in H as (H & _ & _).
  unfold get_game_path_from_gameid. unfold mbind at 1. unfold M_bind at 1.
  rewrite H. unfold subscript. by destruct (config !! gameid).
Qed.

(** X8: a runner without a gameid has no [game_path]: the property is [None]
    and the product database is not read, so it does not raise either when
    there is no database. *)
Theorem game_path_without_gameid (self : winebattlenet) (w : World) :
  dict_get (game_config self) "gameid" = VNone
  ∨ dict_get (game_config self) "gameid" = VStr "" →
  game_path self w = (Ok None, w).
Proof.
  intros H. unfold game_path, runner_gameid, py_or. by destruct H as [-> | ->].
Qed.

(** X9: the list [get_gameid_list] returns is the set of keys of the parsed
    database and always holds ['battle.net']; it is [None] when there is no
    database on disk. *)
Theorem get_gameid_list_root (w : World) :
  (∀ ids, (get_gameid_list w).1 = Ok (Some ids) →
     "battle.net" ∈ ids
     ∧ ∃ data config,
         fs w !! product_db_path = Some (File data)
         ∧ (products_parse (open_rb data)).1 = Ok config ∧ ids = dom config)
  ∧ (fs w !! product_db_path = None → get_gameid_list w = (Ok None, w)).
Proof.
  split.
  - intros ids. unfold get_gameid_list. unfold mbind at 1. unfold M_bind at 1.
    destruct (get_bnet_games X w) as [[[config|]|e] w'] eqn:E; try done.
    assert (H : (get_bnet_games X w).1 = Ok (Some config)) by by rewrite E.
    apply get_bnet_games_sound in H as (_ & Hroot & data & Hd & Hparse).
    case_bool_decide; [|done]. cbn. intros [= <-]. split.
    + by apply elem_of_dom.
    + by exists data, config.
  - intros H. unfold get_gameid_list, mbind, M_bind.
    by rewrite (get_bnet_games_missing w H).
Qed.

End Queries.

Lemma game_path_without_database_witness :
  game_path example_externals example_runner (mkWorld ∅ [])
  = (Raise TypeError, mkWorld ∅ []).
Proof.
  exact (proj2 (game_path_without_database example_externals example_runner VNone
                  (mkWorld ∅ []) eq_refl eq_refl)).
Defined.

Lemma get_game_path_from_gameid_lookup_witness :
  get_game_path_from_gameid example_externals (VStr "prometheus") example_world
  = (Ok (Some "C:/Games/Overwatch"), example_world).
Proof.
  assert (H : (get_bnet_games example_externals example_world).1
              = Ok (Some example_products)) by (vm_compute; reflexivity).
  exact (get_game_path_from_gameid_lookup example_externals example_world
           example_products "prometheus" H).
Defined.

Lemma game_path_without_gameid_witness :
  game_path example_externals (mkRunner None) (mkWorld ∅ []) = (Ok None, mkWorld ∅ []).
Proof.
  apply (game_path_without_gameid example_externals (mkRunner None) (mkWorld ∅ [])).
  left. reflexivity.
Defined.

(** * Starting a game without the Battle.net client ([play]) *)

Section PlayDirect.
Context (X : Externals).

(** The part of [play] that follows the resolution of the game directory. *)
Definition play_in_directory (self : winebattlenet) (game_dir : string) : M PlayResult :=
  let game_args := py_or (dict_get (game_config self) "args") (VStr "") in
  let launch_env := wine_env X in
  isdir ← os_path_isdir game_dir;
  if negb isdir then mret (PlayError "DIR_NOT_FOUND" game_dir) else
  game ← lift (subscript gamelist (runner_gameid self));
  let game_path := os_path_join game_dir [game.1.2] in
  e ← os_path_exists game_path;
  if negb e then mret (PlayError "FILE_NOT_FOUND" game_path) else
  let command := [wine_executable X] in
  let runner_args := py_or (dict_get (runner_config X self) "args") (VStr "") in
  args ← (if truthy runner_args then lift (shlex_split X runner_args) else mret []);
  let command := command ++ args in
  let command := command ++ [game_path] in
  args ← (if truthy game_args then lift (shlex_split X game_args) else mret []);
  let command := command ++ args in
  mret (Launch {| env := launch_env; command := command |}).

(** The first statement of [play] returns and leaves the disk as it is. *)
Ltac play_setup w w1 Hfs1 :=
  unfold play;
  match goal with
  | |- context [if truthy (dict_get ?rc "x360ce-path") then ?a else ?b] =>
    let Hsetup := fresh "Hsetup" in
    assert (Hsetup : ∃ w1, (if truthy (dict_get rc "x360ce-path") then a else b) w
                           = (Ok (), w1) ∧ fs w1 = fs w);
    [ unfold dict_get, subscript;
      destruct (rc !! "x360ce-path") as [v|]; simpl;
      [ destruct (truthy v); run; eauto | run; eauto ]
    | destruct Hsetup as (w1 & Hsetup & Hfs1);
      unfold mbind at 1; unfold M_bind at 1; rewrite Hsetup ]
  end.

Lemma play_resolved (self : winebattlenet) (w w2 : World)
    (products : gmap string Product) (entry : Product) (prefix : string) :
  subscript (runner_config X self) (VStr "run_without_bnet") = Ok (VBool true) →
  (get_bnet_games X w).1 = Ok (Some products) →
  subscript products (runner_gameid self) = Ok entry →
  prefix_path X self w = (Ok prefix, w2) →
  ∃ w2' : World,
    fs w2' = fs w2
    ∧ play X self w = play_in_directory self (winepath X (path entry) prefix) w2'.
Proof.
  intros Hrun Hdb Hentry Hprefix. play_setup w w1 Hfs1.
  unfold mbind at 1. unfold M_bind at 1. unfold lift at 1. rewrite Hrun.
  rewrite bool_decide_true by done.
  destruct (fs_reader_transfer (get_bnet_games X) w w1 (get_bnet_games_reader X) Hfs1)
    as (Hr & Hfs1' & _).
  unfold mbind at 1. unfold M_bind at 1.
  destruct (get_bnet_games X w1) as [r1 w1'] eqn:Eg. simpl in Hr, Hfs1'.
  rewrite Hr, Hdb.
  unfold mbind at 1. unfold M_bind at 1. unfold lift at 1. rewrite Hentry.
  destruct (fs_determined_transfer (prefix_path X self) w w1'
              (prefix_path_determined X self) Hfs1') as (Hp & Hfs2).
  unfold mbind at 1. unfold M_bind at 1.
  destruct (prefix_path X self w1') as [r2 w2'] eqn:Ep. rewrite Hprefix in Hp, Hfs2.
  simpl in Hp, Hfs2. subst r2. exists w2'. split; [done|]. reflexivity.
Qed.

(** X10: when the game directory is on disk but the executable of the game is
    not in it, [play] returns [{'error': 'FILE_NOT_FOUND', 'file': game_path}],
    [game_path] being the executable that [gamelist] names, inside the
    directory. *)
Theorem play_missing_executable (self : winebattlenet) (w w2 : World)
    (products : gmap string Product) (entry : Product) (prefix : string)
    (game : string * string * string) :
  subscript (runner_config X self) (VStr "run_without_bnet") = Ok (VBool true) →
  (get_bnet_games X w).1 = Ok (Some products) →
  subscript products (runner_gameid self) = Ok entry →
  prefix_path X self w = (Ok prefix, w2) →
  fs w2 !! winepath X (path entry) prefix = Some Dir →
  subscript gamelist (runner_gameid self) = Ok game →
  fs w2 !! os_path_join (winepath X (path entry) prefix) [game.1.2] = None →
  ∃ w' : World,
    play X self w
    = (Ok (PlayError "FILE_NOT_FOUND"
             (os_path_join (winepath X (path entry) prefix) [game.1.2])), w').
Proof.
  intros Hrun Hdb Hentry Hprefix Hdir Hgame Hexe.
  destruct (play_resolved self w w2 products entry prefix) as (w2' & Hfs & ->); try done.
  unfold play_in_directory. cbv zeta.
  unfold mbind at 1. unfold M_bind at 1. unfold os_path_isdir at 1. rewrite Hfs, Hdir.
  cbn [negb]. unfold mbind at 1. unfold M_bind at 1. unfold lift at 1. rewrite Hgame.
  unfold mbind at 1. unfold M_bind at 1. unfold os_path_exists at 1. rewrite Hfs, Hexe.
  cbn [negb]. eauto.
Qed.

(** The words [shlex.split] makes of an argument string; an empty or missing
    one is not split. *)
Definition split_args (args : pyval) : result (list string) :=
  if truthy args then shlex_split X args else Ok [].

(** X11: when the directory and the executable of the game are on disk, [play]
    returns the launch information: the environment of Wine and the command
    made of the Wine executable, the words of the runner arguments, the path of
    the game executable and the words of the game arguments, in this order. *)
Theorem play_command (self : winebattlenet) (w w2 : World)
    (products : gmap string Product) (entry : Product) (prefix : string)
    (game : string * string * string) (n : node) (runner_args game_args : list string) :
  subscript (runner_config X self) (VStr "run_without_bnet") = Ok (VBool true) →
  (get_bnet_games X w).1 = Ok (Some products) →
  subscript products (runner_gameid self) = Ok entry →
  prefix_path X self w = (Ok prefix, w2) →
  fs w2 !! winepath X (path entry) prefix = Some Dir →
  subscript gamelist (runner_gameid self) = Ok game →
  fs w2 !! os_path_join (winepath X (path entry) prefix) [game.1.2] = Some n →
  split_args (py_or (dict_get (runner_config X self) "args") (VStr "")) = Ok runner_args →
  split_args (py_or (dict_get (game_config self) "args") (VStr "")) = Ok game_args →
  ∃ w' : World,
    play X self w
    = (Ok (Launch {|
             env := wine_env X;
             command :=
               [wine_executable X] ++ runner_args
               ++ [os_path_join (winepath X (path entry) prefix) [game.1.2]]
               ++ game_args |}), w').
Proof.
  intros Hrun Hdb Hentry Hprefix Hdir Hgame Hexe Hra Hga.
  destruct (play_resolved self w w2 products entry prefix) as (w2' & Hfs & ->); try done.
  unfold play_in_directory. cbv zeta.
  unfold mbind at 1. unfold M_bind at 1. unfold os_path_isdir at 1. rewrite Hfs, Hdir.
  cbn [negb]. unfold mbind at 1. unfold M_bind at 1. unfold lift at 1. rewrite Hgame.
  unfold mbind at 1. unfold M_bind at 1. unfold os_path_exists at 1. rewrite Hfs, Hexe.
  cbn [negb]. unfold split_args in Hra, Hga.
  exists w2'. unfold mbind, M_bind.
  destruct (truthy (py_or (dict_get (runner_config X self) "args") (VStr "")));
    destruct (truthy (py_or (dict_get (game_config self) "args") (VStr "")));
    unfold lift, mret, M_ret; rewrite ?Hra, ?Hga;
    injection Hra as <- || idtac; injection Hga as <- || idtac;
    by rewrite <- ?app_assoc.
Qed.

(** X12: [play] has no structured error for a game it cannot resolve.  With
    [run_without_bnet] set it raises [TypeError] when there is no product
    database (or one without ['battle.net']), and the [KeyError] of the lookup
    when the database does not list the game; and it raises [KeyError] when the
    runner configuration has no [run_without_bnet] entry at all. *)
Theorem play_unresolved_raises (self : winebattlenet) (w : World) :
  (subscript (runner_config X self) (VStr "run_without_bnet") = Ok (VBool true) →
   (get_bnet_games X w).1 = Ok None →
   (play X self w).1 = Raise TypeError)
  ∧ (∀ products e,
       subscript (runner_config X self) (VStr "run_without_bnet") = Ok (VBool true) →
       (get_bnet_games X w).1 = Ok (Some products) →
       subscript products (runner_gameid self) = Raise e →
       (play X self w).1 = Raise e)
  ∧ (runner_config X self !! "run_without_bnet" = None →
     (play X self w).1 = Raise (KeyError (VStr "run_without_bnet"))).
Proof.
  split; [|split].
  - intros Hrun Hdb. play_setup w w1 Hfs1.
    unfold mbind at 1. unfold M_bind at 1. unfold lift at 1. rewrite Hrun.
    rewrite bool_decide_true by done.
    destruct (fs_reader_transfer (get_bnet_games X) w w1 (get_bnet_games_reader X) Hfs1)
      as (Hr & _ & _).
    unfold mbind at 1. unfold M_bind at 1.
    destruct (get_bnet_games X w1) as [r1 w1'] eqn:Eg. simpl in Hr.
    by rewrite Hr, Hdb.
  - intros products e Hrun Hdb Hentry. play_setup w w1 Hfs1.
    unfold mbind at 1. unfold M_bind at 1. unfold lift at 1. rewrite Hrun.
    rewrite bool_decide_true by done.
    destruct (fs_reader_transfer (get_bnet_games X) w w1 (get_bnet_games_reader X) Hfs1)
      as (Hr & _ & _).
    unfold mbind at 1. unfold M_bind at 1.
    destruct (get_bnet_games X w1) as [r1 w1'] eqn:Eg. simpl in Hr.
    rewrite Hr, Hdb.
    unfold mbind at 1. unfold M_bind at 1. unfold lift at 1. by rewrite Hentry.
  - intros Hnone. play_setup w w1 Hfs1.
    unfold mbind at 1. unfold M_bind at 1. unfold lift at 1. unfold subscript at 1.
    by rewrite Hnone.
Qed.

End PlayDirect.

(** The example disk with the game directory, and with the game in it. *)
Definition world_with_directory : World := {|
  fs := <[ "C:/Games/Overwatch" := Dir ]> (fs example_world);
  trace := []
|}.

Definition world_with_game : World := {|
  fs := <[ "C:/Games/Overwatch/Overwatch.exe" := File [] ]> (fs world_with_directory);
  trace := []
|}.

Lemma play_missing_executable_witness :
  ∃ w' : World,
    play example_externals example_runner world_with_directory
    = (Ok (PlayError "FILE_NOT_FOUND" "C:/Games/Overwatch/Overwatch.exe"), w').
Proof.
  apply (play_missing_executable example_externals example_runner world_with_directory
           (prefix_path example_externals example_runner world_with_directory).2
           example_products
           {| gameid := "prometheus"; path := "C:/Games/Overwatch"; code := "Pro" |}
           "/r/winebattlenet/prefix" ("Overwatch", "Overwatch.exe", "Pro"));
    vm_compute; reflexivity.
Defined.

Lemma play_command_witness :
  ∃ w' : World,
    play example_externals example_runner world_with_game
    = (Ok (Launch {| env := ∅;
                     command := ["/usr/bin/wine"; "C:/Games/Overwatch/Overwatch.exe"] |}),
       w').
Proof.
  apply (play_command example_externals example_runner world_with_game
           (prefix_path example_externals example_runner world_with_game).2
           example_products
           {| gameid := "prometheus"; path := "C:/Games/Overwatch"; code := "Pro" |}
           "/r/winebattlenet/prefix" ("Overwatch", "Overwatch.exe", "Pro")
           (File []) [] []);
    vm_compute; reflexivity.
Defined.

Lemma play_unresolved_raises_witness :
  (play example_externals example_runner (mkWorld ∅ [])).1 = Raise TypeError.
Proof.
  apply (proj1 (play_unresolved_raises example_externals example_runner (mkWorld ∅ [])));
    vm_compute; reflexivity.
Defined.

(** * The heartbeat of a running game ([beat]) *)

(** A process of the list [thread.get_processes_list()] gives: its id, name
    and state, and the text [str(child)] prints for it. *)
Record Process : Type := mkProcess {
  proc_pid : nat;
  proc_name : string;
  proc_state : string;
  proc_str : string
}.

(** [child.name in ['Agent.exe', 'Battle.net.exe'] and child.state != 'Z'] *)
Definition launcher_alive (child : Process) : bool :=
  bool_decide (proc_name child ∈ ["Agent.exe"; "Battle.net.exe"])
  && negb (String.eqb (proc_state child) "Z").

(** [gameExe in names and processes[names.index(gameExe)].state == 'S']:
    [index] gives the first process of that name. *)
Definition game_sleeping (gameExe : string) (processes : list Process) : bool :=
  let names := proc_name <$> processes in
  bool_decide (gameExe ∈ names)
  && match list_find (λ name, name = gameExe) names with
     | Some (i, _) =>
       match processes !! i with
       | Some child => String.eqb (proc_state child) "S"
       | None => false
       end
     | None => false
     end.

Section Beat.
Context (X : Externals).

(** The loop [for child in processes] of [beat]. *)
Fixpoint beat_kill (gameExe : string) (processes : list Process) : M unit :=
  match processes with
  | [] => mret ()
  | child :: rest =>
    _ ← (if launcher_alive child
         then _ ← emit (Log DEBUG (gameExe +:+ " is running. Killing " +:+ proc_str child));
              emit (KillPid (Some (proc_pid child)))
         else mret ());
    beat_kill gameExe rest
  end.

(** [beat(thread)], for the processes the thread lists. *)
Definition beat (self : winebattlenet) (processes : list Process) : M unit :=
  game ← lift (subscript gamelist (runner_gameid self));
  let gameExe := game.1.2 in
  if truthy (dict_get (runner_config X self) "quit_bnet_on_play") && truthy (VStr gameExe)
  then
    if game_sleeping gameExe processes then beat_kill gameExe processes
    else mret ()
  else mret ().

(** The events of the loop, in closed form. *)
Definition kill_events (gameExe : string) (processes : list Process) : list event :=
  flat_map
    (λ child, [Log DEBUG (gameExe +:+ " is running. Killing " +:+ proc_str child);
               KillPid (Some (proc_pid child))])
    (filter (λ child, launcher_alive child = true) processes).

Lemma beat_kill_spec (gameExe : string) (processes : list Process) :
  ∀ f t, beat_kill gameExe processes (mkWorld f t)
         = (Ok (), mkWorld f (t ++ kill_events gameExe processes)).
Proof.
  induction processes as [|child rest IH]; intros f t.
  - unfold kill_events. simpl. by rewrite app_nil_r.
  - cbn [beat_kill]. unfold kill_events. rewrite filter_cons.
    destruct (launcher_alive child) eqn:E.
    + rewrite decide_True by done. unfold mbind at 1. unfold M_bind at 1.
      unfold mbind at 1. unfold M_bind at 1. unfold emit. cbn [fs trace].
      rewrite IH. unfold kill_events. cbn [flat_map]. by rewrite <- !app_assoc.
    + rewrite decide_False by (by intros ?). unfold mbind at 1. unfold M_bind at 1.
      unfold mret at 1. unfold M_ret at 1. by rewrite IH.
Qed.

(** What [beat] does, case by case. *)
Lemma beat_spec (self : winebattlenet) (processes : list Process)
    (game : string * string * string) (f : gmap string node) (t : list event) :
  subscript gamelist (runner_gameid self) = Ok game →
  beat self processes (mkWorld f t)
  = (Ok (),
     mkWorld f
       (t ++ if truthy (dict_get (runner_config X self) "quit_bnet_on_play")
                && truthy (VStr game.1.2) && game_sleeping game.1.2 processes
             then kill_events game.1.2 processes else [])).
Proof.
  intros Hgame. unfold beat. unfold mbind at 1. unfold M_bind at 1. unfold lift at 1.
  rewrite Hgame. cbv zeta.
  destruct (truthy (dict_get (runner_config X self) "quit_bnet_on_play")
            && truthy (VStr game.1.2)); cbn [andb].
  - destruct (game_sleeping game.1.2 processes).
    + apply beat_kill_spec.
    + unfold mret, M_ret. by rewrite app_nil_r.
  - unfold mret, M_ret. by rewrite app_nil_r.
Qed.

Lemma kill_events_elem (gameExe : string) (processes : list Process) (ev : event) :
  ev ∈ kill_events gameExe processes →
  ∃ child, child ∈ processes ∧ launcher_alive child = true
    ∧ (ev = Log DEBUG (gameExe +:+ " is running. Killing " +:+ proc_str child)
       ∨ ev = KillPid (Some (proc_pid child))).
Proof.
  unfold kill_events. rewrite list_elem_of_In, in_flat_map.
  intros (child & Hchild & Hev). rewrite <- list_elem_of_In in Hchild.
  apply list_elem_of_filter in Hchild as [Halive Hin].
  exists child. split; [done|]. split; [done|].
  destruct Hev as [<-|[<-|[]]]; auto.
Qed.

(** X13: whatever the processes and the configuration, the only processes
    [beat] kills are processes of the list named [Agent.exe] or
    [Battle.net.exe] that are not defunct; it never calls [kill_pid] without a
    process id, and it kills only when [quit_bnet_on_play] is set and the game
    is in the list. *)
Theorem beat_kills_launcher_only (self : winebattlenet) (processes : list Process)
    (w : World) (pid : option nat) :
  KillPid pid ∈ drop (length (trace w)) (trace (beat self processes w).2) →
  ∃ child game,
    child ∈ processes ∧ pid = Some (proc_pid child)
    ∧ proc_name child ∈ ["Agent.exe"; "Battle.net.exe"]
    ∧ proc_state child ≠ "Z"
    ∧ truthy (dict_get (runner_config X self) "quit_bnet_on_play") = true
    ∧ subscript gamelist (runner_gameid self) = Ok game
    ∧ game.1.2 ∈ (proc_name <$> processes).
Proof.
  destruct w as [f t]. cbn [trace].
  destruct (subscript gamelist (runner_gameid self)) as [game|e] eqn:Hgame.
  - rewrite (beat_spec self processes game f t Hgame). cbn [snd trace].
    rewrite drop_app_length.
    destruct (truthy (dict_get (runner_config X self) "quit_bnet_on_play")) eqn:Hopt;
      cbn [andb]; [|by intros ?%elem_of_nil].
    destruct (truthy (VStr game.1.2)); cbn [andb]; [|by intros ?%elem_of_nil].
    destruct (game_sleeping game.1.2 processes) eqn:Hsleep; [|by intros ?%elem_of_nil].
    intros (child & Hin & Halive & [Hev|Hev])%kill_events_elem; [done|].
    injection Hev as ->. exists child, game.
    unfold launcher_alive in Halive. apply andb_prop in Halive as [Hname Hstate].
    apply bool_decide_eq_true_1 in Hname.
    unfold game_sleeping in Hsleep. apply andb_prop in Hsleep as [Hgamein _].
    apply bool_decide_eq_true_1 in Hgamein.
    repeat split; try done.
    intros E. rewrite E in Hstate. done.
  - unfold beat. unfold mbind at 1. unfold M_bind at 1. unfold lift at 1.
    rewrite Hgame. cbn [snd trace]. rewrite drop_all. by intros ?%elem_of_nil.
Qed.

(** X14: when [quit_bnet_on_play] is set and the first process that bears the
    name of the game executable is in state ['S'], [beat] kills every process
    named [Agent.exe] or [Battle.net.exe] that is not defunct, each once, in
    the order of the list, after logging it; nothing else happens. *)
Theorem beat_kills_launcher (self : winebattlenet) (processes : list Process)
    (game : string * string * string) (w : World) :
  subscript gamelist (runner_gameid self) = Ok game →
  truthy (dict_get (runner_config X self) "quit_bnet_on_play") = true →
  game_sleeping game.1.2 processes = true →
  beat self processes w
  = (Ok (), mkWorld (fs w) (trace w ++ kill_events game.1.2 processes))
  ∧ filter (λ ev, is_kill ev = true) (kill_events game.1.2 processes)
    = (λ child, KillPid (Some (proc_pid child)))
      <$> filter (λ child, launcher_alive child = true) processes.
Proof.
  intros Hgame Hopt Hsleep. split.
  - destruct w as [f t]. rewrite (beat_spec self processes game f t Hgame).
    rewrite Hopt, Hsleep. cbn [andb].
    assert (Hexe : truthy (VStr game.1.2) = true).
    { unfold game_sleeping in Hsleep. apply andb_prop in Hsleep as [Hin _].
      apply bool_decide_eq_true_1 in Hin.
      unfold gamelist, subscript in Hgame.
      destruct (runner_gameid self) as [| |g]; try done.
      destruct (decide (g = "prometheus")) as [->|]; [by injection Hgame as <-|].
      destruct (decide (g = "prometheus_test")) as [->|]; [by injection Hgame as <-|].
      by rewrite !lookup_insert_ne, lookup_empty in Hgame. }
    by rewrite Hexe.
  - unfold kill_events.
    induction (filter (λ child, launcher_alive child = true) processes) as [|c l IH];
      [done|].
    cbn [flat_map fmap list_fmap app]. rewrite filter_cons_False by (by intros ?).
    rewrite filter_cons_True by done. by rewrite IH.
Qed.

(** X15: [beat] leaves Battle.net alone, and does nothing at all, when
    [quit_bnet_on_play] is not set, when no process bears the name of the game
    executable, and when the first process that bears it is in another state
    than ['S'], ['R'] (running) included. *)
Theorem beat_idle (self : winebattlenet) (processes : list Process)
    (game : string * string * string) (w : World) :
  subscript gamelist (runner_gameid self) = Ok game →
  truthy (dict_get (runner_config X self) "quit_bnet_on_play") = false
  ∨ (game.1.2 ∉ (proc_name <$> processes))
  ∨ (∃ before child after,
       processes = before ++ child :: after
       ∧ (game.1.2 ∉ (proc_name <$> before))
       ∧ proc_name child = game.1.2 ∧ proc_state child ≠ "S") →
  beat self processes w = (Ok (), w).
Proof.
  intros Hgame Hidle. destruct w as [f t].
  rewrite (beat_spec self processes game f t Hgame).
  assert (H : truthy (dict_get (runner_config X self) "quit_bnet_on_play")
              && truthy (VStr game.1.2) && game_sleeping game.1.2 processes = false).
  { destruct Hidle as [->|[Hnot|(before & child & after & -> & Hbefore & Hname & Hstate)]];
      [done| |].
    - unfold game_sleeping. rewrite bool_decide_false by done.
      by rewrite andb_false_r.
    - unfold game_sleeping.
      assert (Hfind : list_find (λ name, name = game.1.2)
                        (proc_name <$> before ++ child :: after)
                      = Some (length before, game.1.2)).
      { apply list_find_Some. rewrite fmap_app, fmap_cons. split; [|split; [done|]].
        - rewrite lookup_app_r by (by rewrite length_fmap).
          rewrite length_fmap, Nat.sub_diag. cbn. by rewrite Hname.
        - intros j y Hj Hlt ->. apply Hbefore.
          rewrite lookup_app_l in Hj by (by rewrite length_fmap).
          by eapply list_elem_of_lookup_2. }
      rewrite Hfind. rewrite lookup_app_r by done. rewrite Nat.sub_diag. cbn.
      destruct (String.eqb_spec (proc_state child) "S"); [done|].
      by rewrite !andb_false_r. }
  rewrite H. by rewrite app_nil_r.
Qed.

(** X16: for a runner whose gameid is not a key of [gamelist], one without a
    gameid among them, [beat] raises the [KeyError] of the lookup before it
    looks at any process. *)
Theorem beat_unknown_game (self : winebattlenet) (processes : list Process) (w : World) :
  (∀ gameid, runner_gameid self = VStr gameid → gamelist !! gameid = None) →
  beat self processes w = (Raise (KeyError (runner_gameid self)), w).
Proof.
  intros Hunknown. unfold beat. unfold mbind at 1. unfold M_bind at 1. unfold lift at 1.
  unfold subscript. destruct (runner_gameid self) as [| |gameid] eqn:E; try done.
  by rewrite (Hunknown gameid eq_refl).
Qed.

End Beat.

(** A runner that stops Battle.net when the game runs, and a process list with
    the game asleep, a live and a defunct Agent and the Battle.net client. *)
Definition quitting_runner : winebattlenet := {|
  config := Some {|
    cfg_game_config := {[ "gameid" := VStr "prometheus" ]};
    cfg_runner_config := {[ "quit_bnet_on_play" := VBool true ]}
  |}
|}.

Definition example_processes : list Process :=
  [ mkProcess 10 "Overwatch.exe" "S" "Overwatch.exe (10)";
    mkProcess 11 "Battle.net.exe" "S" "Battle.net.exe (11)";
    mkProcess 12 "Agent.exe" "Z" "Agent.exe (12)";
    mkProcess 13 "Agent.exe" "R" "Agent.exe (13)" ].

Lemma beat_kills_launcher_only_witness :
  ∃ child game,
    child ∈ example_processes ∧ Some 13 = Some (proc_pid child)
    ∧ proc_name child ∈ ["Agent.exe"; "Battle.net.exe"]
    ∧ proc_state child ≠ "Z"
    ∧ truthy (dict_get (runner_config example_externals quitting_runner)
                "quit_bnet_on_play") = true
    ∧ subscript gamelist (runner_gameid quitting_runner) = Ok game
    ∧ game.1.2 ∈ (proc_name <$> example_processes).
Proof.
  apply (beat_kills_launcher_only example_externals quitting_runner example_processes
           (mkWorld ∅ [])).
  rewrite list_elem_of_In. vm_compute. auto.
Defined.

Lemma beat_kills_launcher_witness :
  (beat example_externals quitting_runner example_processes (mkWorld ∅ [])).1 = Ok ()
  ∧ filter (λ ev, is_kill ev = true) (kill_events "Overwatch.exe" example_processes)
    = [KillPid (Some 11); KillPid (Some 13)].
Proof.
  destruct (beat_kills_launcher example_externals quitting_runner example_processes
              ("Overwatch", "Overwatch.exe", "Pro") (mkWorld ∅ [])
              eq_refl eq_refl eq_refl) as [H1 H2].
  split; [by rewrite H1|]. cbn [fst snd] in H2. rewrite H2. reflexivity.
Defined.

Lemma beat_idle_witness :
  let running := [ mkProcess 10 "Overwatch.exe" "R" "Overwatch.exe (10)";
                   mkProcess 11 "Battle.net.exe" "S" "Battle.net.exe (11)" ] in
  beat example_externals quitting_runner running (mkWorld ∅ []) = (Ok (), mkWorld ∅ []).
Proof.
  intros running.
  apply (beat_idle example_externals quitting_runner running
           ("Overwatch", "Overwatch.exe", "Pro") (mkWorld ∅ []) eq_refl).
  right. right.
  exists [], (mkProcess 10 "Overwatch.exe" "R" "Overwatch.exe (10)"),
    [mkProcess 11 "Battle.net.exe" "S" "Battle.net.exe (11)"].
  split; [reflexivity|]. split; [apply not_elem_of_nil|]. split; [reflexivity|].
  discriminate.
Defined.

Lemma beat_unknown_game_witness :
  beat example_externals (mkRunner None) example_processes (mkWorld ∅ [])
  = (Raise (KeyError (VStr "")), mkWorld ∅ []).
Proof.
  apply (beat_unknown_game example_externals (mkRunner None) example_processes
           (mkWorld ∅ [])).
  intros gameid [= <-]. reflexivity.
Defined.

(** * Locating Battle.net ([get_open_command], [get_bnet_path], [is_installed]) *)

(** [s.split(sep)] for a separator of one character: the pieces between the
    separators, the empty ones too. *)
Fixpoint split_on (sep : ascii) (s : string) : list string :=
  match s with
  | EmptyString => [EmptyString]
  | String c s' =>
    match split_on sep s' with
    | piece :: pieces =>
      if Ascii.eqb c sep then EmptyString :: piece :: pieces
      else String c piece :: pieces
    | [] => []
    end
  end.

(** [s.strip(c)] for one character: the string without the [c] at its two
    ends. *)
Fixpoint lstrip_char (c : ascii) (cs : list ascii) : list ascii :=
  match cs with
  | c' :: cs' => if Ascii.eqb c' c then lstrip_char c cs' else cs
  | [] => []
  end.

Definition strip_char (c : ascii) (s : string) : string :=
  string_of_list_ascii
    (rev (lstrip_char c (rev (lstrip_char c (list_ascii_of_string s))))).

(** The double quote and the backslash. *)
Definition quote : ascii := "034".
Definition backslash : ascii := "092".

(** A registry object: what [registry.query(path, subkey)] and
    [registry.get_unix_path(windows_path)] answer. *)
Record Registry : Type := mkRegistry {
  query : string → string → option string;
  get_unix_path : string → string
}.

(** [get_open_command(registry)]: the text between the first two double quotes
    of the Open command, without the backslashes at its ends. *)
Definition get_open_command (registry : Registry) : result (option string) :=
  let value := query registry "Software/Classes/blizzard/Shell/Open/Command" "default" in
  match value with
  | None => Ok None
  | Some value =>
    if negb (truthy (VStr value)) then Ok None else
    let parts := split_on quote value in
    match parts !! 1 with
    | Some part => Ok (Some (strip_char backslash part))
    | None => Raise IndexError
    end
  end.

(** What the runner takes from [lutris.util.wineregistry], [lutris.util.system]
    and the [wine] runner to locate Battle.net. *)
Record WineExternals : Type := mkWineExternals {
  (** [WineRegistry(user_reg)], read from the disk *)
  WineRegistry : gmap string node → string → result Registry;
  (** [system.fix_path_case(path)]: a path or [None] *)
  fix_path_case : gmap string node → string → option string;
  (** [wine.is_installed(version, fallback)] *)
  wine_is_installed : gmap string node → pyval → pyval → pyval
}.

Section Locate.
Context (X : Externals) (Y : WineExternals).

Definition read_fs : M (gmap string node) := λ w, (Ok (fs w), w).

(** One round of the loop of [get_bnet_path]: the path found for this prefix,
    or [None] to go on with the next candidate. *)
Definition bnet_path_in (prefix : string) : M (option string) :=
  let bnet_path :=
    os_path_join prefix ["drive_c/Program Files/Battle.net/Battle.net Launcher.exe"] in
  e ← os_path_exists bnet_path;
  if (e : bool) then mret (Some bnet_path) else
  let bnet_path :=
    os_path_join prefix ["drive_c/Program Files (x86)/Battle.net/Battle.net Launcher.exe"] in
  e ← os_path_exists bnet_path;
  if (e : bool) then mret (Some bnet_path) else
  let user_reg := os_path_join prefix ["user.reg"] in
  e ← os_path_exists user_reg;
  if negb e then mret None else
  disk ← read_fs;
  registry ← lift (WineRegistry Y disk user_reg);
  bnet_path ← lift (get_open_command registry);
  match bnet_path with
  | None => mret None
  | Some bnet_path =>
    if negb (truthy (VStr bnet_path)) then mret None else
    let path := get_unix_path registry bnet_path in
    let path := fix_path_case Y disk path in
    match path with
    | Some path => if truthy (VStr path) then mret (Some path) else mret None
    | None => mret None
    end
  end.

Fixpoint get_bnet_path_for (candidates : list string) : M (option string) :=
  match candidates with
  | [] => mret None
  | prefix :: candidates' =>
    found ← bnet_path_in prefix;
    match found with
    | Some path => mret (Some path)
    | None => get_bnet_path_for candidates'
    end
  end.

(** [get_bnet_path()] *)
Definition get_bnet_path : M (option string) :=
  let candidates := [get_default_prefix X VNone] in
  get_bnet_path_for candidates.

(** [winebattlenet.is_installed(version, fallback)] *)
Definition is_installed (version fallback : pyval) : M bool :=
  disk ← read_fs;
  let wine_installed := wine_is_installed Y disk version fallback in
  if negb (truthy wine_installed)
  then (_ ← emit (Log WARNING "wine is not installed"); mret false)
  else
    bnet_path ← get_bnet_path;
    match bnet_path with
    | None => mret false
    | Some bnet_path =>
      if negb (truthy (VStr bnet_path)) then mret false else
      e ← os_path_exists (get_default_prefix X VNone);
      if negb e then mret false else os_path_exists bnet_path
    end.

End Locate.

Lemma split_on_no_sep (sep : ascii) (s : string) :
  sep ∉ list_ascii_of_string s → split_on sep s = [s].
Proof.
  induction s as [|c s IH]; cbn [split_on list_ascii_of_string]; [done|].
  intros [Hc Hs]%not_elem_of_cons. rewrite (IH Hs).
  destruct (Ascii.eqb_spec c sep); [congruence|done].
Qed.

Lemma split_on_nonempty (sep : ascii) (s : string) : split_on sep s ≠ [].
Proof.
  induction s as [|c s IH]; cbn [split_on]; [done|].
  destruct (split_on sep s); [done|]. by destruct (Ascii.eqb c sep).
Qed.

Lemma split_on_sep (sep : ascii) (s : string) :
  split_on sep (String sep s) = EmptyString :: split_on sep s.
Proof.
  cbn [split_on]. rewrite Ascii.eqb_refl.
  pose proof (split_on_nonempty sep s). by destruct (split_on sep s).
Qed.

Lemma split_on_app (sep : ascii) (pre s : string) :
  sep ∉ list_ascii_of_string pre →
  split_on sep (pre +:+ String sep s) = pre :: split_on sep s.
Proof.
  induction pre as [|c pre IH]; cbn [list_ascii_of_string]; intros Hpre.
  - change (EmptyString +:+ String sep s) with (String sep s). by rewrite split_on_sep.
  - apply not_elem_of_cons in Hpre as [Hc Hpre].
    change (String c pre +:+ String sep s) with (String c (pre +:+ String sep s)).
    cbn [split_on]. rewrite (IH Hpre).
    destruct (Ascii.eqb_spec c sep); [congruence|done].
Qed.

Definition open_command_key : string := "Software/Classes/blizzard/Shell/Open/Command".

(** X17: for an Open command that holds a quoted text, [get_open_command]
    returns the text between the first two double quotes, without the
    backslashes at its two ends; what stands before the first and after the
    second quote does not matter. *)
Theorem get_open_command_quoted (registry : Registry) (pre mid rest : string) :
  query registry open_command_key "default"
    = Some (pre +:+ String quote (mid +:+ String quote rest)) →
  quote ∉ list_ascii_of_string pre →
  quote ∉ list_ascii_of_string mid →
  get_open_command registry = Ok (Some (strip_char backslash mid)).
Proof.
  unfold open_command_key. intros Hq Hpre Hmid. unfold get_open_command.
  rewrite Hq. cbv zeta.
  assert (Hne : truthy (VStr (pre +:+ String quote (mid +:+ String quote rest))) = true).
  { unfold truthy. by destruct pre. }
  rewrite Hne. cbn [negb].
  by rewrite (split_on_app quote pre _ Hpre), (split_on_app quote mid _ Hmid).
Qed.

Lemma get_open_command_no_quote (registry : Registry) (value : string) :
  query registry open_command_key "default" = Some value →
  value ≠ "" →
  quote ∉ list_ascii_of_string value →
  get_open_command registry = Raise IndexError.
Proof.
  unfold open_command_key, get_open_command. intros -> Hne Hq. cbv zeta.
  assert (Ht : truthy (VStr value) = true) by (unfold truthy; by destruct value).
  rewrite Ht. cbn [negb]. by rewrite split_on_no_sep.
Qed.

(** X18: an Open command without any double quote makes [get_open_command]
    raise [IndexError]; a missing or empty one gives [None]. *)
Theorem get_open_command_unquoted (registry : Registry) :
  (∀ value,
     query registry open_command_key "default" = Some value →
     value ≠ "" →
     quote ∉ list_ascii_of_string value →
     get_open_command registry = Raise IndexError)
  ∧ (query registry open_command_key "default" = None
     ∨ query registry open_command_key "default" = Some "" →
     get_open_command registry = Ok None).
Proof.
  split; [apply get_open_command_no_quote|].
  unfold open_command_key, get_open_command. by intros [-> | ->].
Qed.

Section LocateFacts.
Context (X : Externals) (Y : WineExternals).

Definition launcher_path : string :=
  os_path_join (get_default_prefix X VNone)
    ["drive_c/Program Files/Battle.net/Battle.net Launcher.exe"].

Definition launcher_path_x86 : string :=
  os_path_join (get_default_prefix X VNone)
    ["drive_c/Program Files (x86)/Battle.net/Battle.net Launcher.exe"].

Definition user_reg_path : string :=
  os_path_join (get_default_prefix X VNone) ["user.reg"].



(** X19: [get_bnet_path] looks for the launcher under [Program Files] first,
    then under [Program Files (x86)], in the default 32-bit prefix: it returns
    the first of the two that is on disk without opening the registry, and
    [None] when neither is there and the prefix has no [user.reg]. *)
Theorem get_bnet_path_default_install (w : World) :
  (is_Some (fs w !! launcher_path) →
   get_bnet_path X Y w = (Ok (Some launcher_path), w))
  ∧ (fs w !! launcher_path = None → is_Some (fs w !! launcher_path_x86) →
     get_bnet_path X Y w = (Ok (Some launcher_path_x86), w))
  ∧ (fs w !! launcher_path = None → fs w !! launcher_path_x86 = None →
     fs w !! user_reg_path = None →
     get_bnet_path X Y w = (Ok None, w)).
Proof.
  unfold get_bnet_path. cbv zeta. cbn [get_bnet_path_for]. unfold bnet_path_in.
  fold launcher_path launcher_path_x86 user_reg_path. cbv zeta.
  split; [|split].
  - intros [n Hn]. unfold mbind, M_bind, os_path_exists. by rewrite Hn.
  - intros H1 [n Hn]. unfold mbind, M_bind, os_path_exists. by rewrite H1, Hn.
  - intros H1 H2 H3. unfold mbind, M_bind, os_path_exists. by rewrite H1, H2, H3.
Qed.

Lemma is_installed_unfold (version fallback : pyval) (w : World) :
  is_installed X Y version fallback w
  = if negb (truthy (wine_is_installed Y (fs w) version fallback))
    then (Ok false, mkWorld (fs w) (trace w ++ [Log WARNING "wine is not installed"]))
    else
      match get_bnet_path X Y w with
      | (Ok (Some bnet_path), w1) =>
        if negb (truthy (VStr bnet_path)) then (Ok false, w1)
        else match fs w1 !! get_default_prefix X VNone with
             | Some _ =>
               (Ok (match fs w1 !! bnet_path with Some _ => true | None => false end), w1)
             | None => (Ok false, w1)
             end
      | (Ok None, w1) => (Ok false, w1)
      | (Raise e, w1) => (Raise e, w1)
      end.
Proof.
  unfold is_installed. unfold mbind at 1. unfold M_bind at 1. unfold read_fs at 1.
  cbv zeta. destruct (negb (truthy (wine_is_installed Y (fs w) version fallback))); [done|].
  unfold mbind at 1. unfold M_bind at 1.
  destruct (get_bnet_path X Y w) as [[[p|]|e] w1]; try done.
  destruct (negb (truthy (VStr p))); [done|].
  unfold mbind, M_bind, os_path_exists.
  by destruct (fs w1 !! get_default_prefix X VNone).
Qed.


(** X21: when Wine itself is not installed, [is_installed] logs the warning
    and returns [False] without looking for Battle.net. *)
Theorem is_installed_without_wine (version fallback : pyval) (w : World) :
  truthy (wine_is_installed Y (fs w) version fallback) = false →
  is_installed X Y version fallback w
  = (Ok false, mkWorld (fs w) (trace w ++ [Log WARNING "wine is not installed"])).
Proof.
  intros H. by rewrite is_installed_unfold, H.
Qed.

(** X22: [is_installed] is not free of exceptions: with Wine installed, no
    launcher at the two default places and a [user.reg] whose Open command is
    a text without a double quote, the [IndexError] of [get_open_command]
    leaves [get_bnet_path] and [is_installed]. *)
Theorem is_installed_raises (version fallback : pyval) (w : World)
    (registry : Registry) (value : string) :
  truthy (wine_is_installed Y (fs w) version fallback) = true →
  fs w !! launcher_path = None →
  fs w !! launcher_path_x86 = None →
  is_Some (fs w !! user_reg_path) →
  WineRegistry Y (fs w) user_reg_path = Ok registry →
  query registry open_command_key "default" = Some value →
  value ≠ "" →
  quote ∉ list_ascii_of_string value →
  get_bnet_path X Y w = (Raise IndexError, w)
  ∧ is_installed X Y version fallback w = (Raise IndexError, w).
Proof.
  intros Hwine H1 H2 [n H3] Hreg Hq Hne Hquote.
  assert (Hpath : get_bnet_path X Y w = (Raise IndexError, w)).
  { unfold get_bnet_path. cbv zeta. cbn [get_bnet_path_for]. unfold bnet_path_in.
    fold launcher_path launcher_path_x86 user_reg_path. cbv zeta.
    unfold mbind, M_bind, os_path_exists, read_fs, lift. rewrite H1, H2, H3.
    cbn [negb]. rewrite Hreg.
    by rewrite (get_open_command_no_quote registry value Hq Hne Hquote). }
  split; [done|]. by rewrite is_installed_unfold, Hwine, Hpath.
Qed.

End LocateFacts.

(** Registries with a quoted and with an unquoted Open command, and a system
    in which Wine is installed when [/usr/bin/wine] is on disk. *)
Definition quoted_registry : Registry := {|
  query := λ _ _,
    Some (String quote ("C:\Battle.net\Battle.net.exe\" +:+ String quote " --exec"));
  get_unix_path := λ p, p
|}.

Definition unquoted_registry : Registry := {|
  query := λ _ _, Some "C:\Battle.net\Battle.net.exe";
  get_unix_path := λ p, p
|}.

Definition example_wine : WineExternals := {|
  WineRegistry := λ _ _, Ok unquoted_registry;
  fix_path_case := λ _ p, Some p;
  wine_is_installed := λ disk _ _,
    VBool (match disk !! "/usr/bin/wine" with Some _ => true | None => false end)
|}.

Lemma get_open_command_quoted_witness :
  get_open_command quoted_registry = Ok (Some "C:\Battle.net\Battle.net.exe").
Proof.
  apply (get_open_command_quoted quoted_registry "" "C:\Battle.net\Battle.net.exe\"
           " --exec").
  - reflexivity.
  - apply not_elem_of_nil.
  - apply (bool_decide_eq_false_1 _). vm_compute. reflexivity.
Defined.


(** Wine and a prefix with a [user.reg], but no launcher. *)
Definition registry_world : World := {|
  fs := {[ "/usr/bin/wine" := File [];
           "/r/winebattlenet/prefix" := Dir;
           "/r/winebattlenet/prefix/user.reg" := File [] ]};
  trace := []
|}.


Lemma is_installed_without_wine_witness :
  is_installed example_externals example_wine VNone (VBool true) (mkWorld ∅ [])
  = (Ok false, mkWorld ∅ [Log WARNING "wine is not installed"]).
Proof.
  exact (is_installed_without_wine example_externals example_wine VNone (VBool true)
           (mkWorld ∅ []) eq_refl).
Defined.

Lemma is_installed_raises_witness :
  is_installed example_externals example_wine VNone (VBool true) registry_world
  = (Raise IndexError, registry_world).
Proof.
  refine (proj2 (is_installed_raises example_externals example_wine VNone (VBool true)
                   registry_world unquoted_registry "C:\Battle.net\Battle.net.exe"
                   eq_refl eq_refl eq_refl _ eq_refl eq_refl _ _)).
  - exists (File []). reflexivity.
  - discriminate.
  - apply (bool_decide_eq_false_1 _). vm_compute. reflexivity.
Defined.

(** * The generic runner ([runner.py]) *)

Module Generic.

(** [needle in hay], for strings. *)
Fixpoint contains (needle hay : string) : bool :=
  String.prefix needle hay
  || match hay with
     | String _ hay' => contains needle hay'
     | EmptyString => false
     end.

(** [get_arch()] and [get_arch_for_api()], for the name [platform.machine()]
    gives. *)
Definition get_arch (machine : string) : option string :=
  if contains "64" machine then Some "x64"
  else if contains "86" machine then Some "i386"
  else None.

Definition get_arch_for_api (machine : string) : option string :=
  if contains "64" machine then Some "x86_64"
  else if contains "86" machine then Some "i386"
  else None.

(** A version of a runner in the answer of the Lutris API. *)
Record Version : Type := mkVersion {
  architecture : string;
  default : pyval;
  url : string
}.

(** What [get_runner_url] and [tarballs.get] give [install]: a string, or a
    whole version. *)
Inductive tarball : Type :=
  | TStr (s : string)
  | TVersion (v : Version).

(** [get_runner_url()], for the decoded answer of the API ([None] for an empty
    answer). *)
Definition get_runner_url (machine : string) (response_content : option (list Version))
    : option tarball :=
  match response_content with
  | None => None
  | Some versions =>
    let versions :=
      filter (λ version, Some (architecture version) = get_arch_for_api machine) versions in
    if bool_decide (length versions = 1) then
      match versions with
      | version :: _ => Some (TStr (url version))
      | [] => None
      end
    else if bool_decide (1 < length versions) then
      let default_version :=
        filter (λ version, default version = VBool true) versions in
      match default_version with
      | version :: _ => Some (TVersion version)
      | [] => None
      end
    else None
  end.

(** [os.path.basename(p)]: what follows the last slash. *)
Fixpoint take_until_sep (cs : list ascii) : list ascii :=
  match cs with
  | c :: cs' => if Ascii.eqb c "/" then [] else c :: take_until_sep cs'
  | [] => []
  end.

Definition os_path_basename (p : string) : string :=
  string_of_list_ascii (rev (take_until_sep (rev (list_ascii_of_string p)))).

(** What an installation does, in order. *)
Inductive action : Type :=
  | LogDebug (msg : string)
  | LogError (msg : string)
  | ErrorDialog (msg : string)
  | QuestionDialog
  | DownloadDialog (url dest : string)
  | ExtractArchive (archive dest : string) (merge_single : bool)
  | Remove (p : string).

Record State : Type := mkState {
  disk : gmap string node;
  actions : list action
}.

Definition G (A : Type) : Type := State → result A * State.

#[global] Instance G_ret : MRet G := λ A a s, (Ok a, s).
#[global] Instance G_bind : MBind G := λ A B k m s,
  match m s with
  | (Ok a, s') => k a s'
  | (Raise e, s') => (Raise e, s')
  end.

Definition fail {A : Type} (e : exn) : G A := λ s, (Raise e, s).

Definition act (a : action) : G unit := λ s,
  (Ok (), {| disk := disk s; actions := actions s ++ [a] |}).

Definition on_disk (f : gmap string node → result (gmap string node)) : G unit := λ s,
  match f (disk s) with
  | Ok d => (Ok (), {| disk := d; actions := actions s |})
  | Raise e => (Raise e, s)
  end.

Definition path_exists (p : string) : G bool := λ s,
  (Ok (match disk s !! p with Some _ => true | None => false end), s).

(** [os.remove(p)] *)
Definition os_remove (p : string) : G unit :=
  _ ← act (Remove p);
  on_disk (λ d, match d !! p with
                | Some (File _) => Ok (delete p d)
                | Some Dir => Raise IsADirectoryError
                | None => Raise FileNotFoundError
                end).

(** What the generic runner takes from the rest of Lutris. *)
Record Externals : Type := mkExternals {
  (** [platform.machine()] *)
  machine : string;
  (** [settings.RUNNERS_URL], [settings.CACHE_DIR], [settings.RUNNER_DIR] *)
  RUNNERS_URL : string;
  CACHE_DIR : string;
  RUNNER_DIR : string;
  (** the decoded answer of [https://lutris.net/api/runners/<name>] *)
  api_response : string → option (list Version);
  (** what [DownloadDialog(url, dest).run()] leaves on disk *)
  download : string → string → gmap string node → gmap string node;
  (** what [extract_archive(archive, dest, merge_single)] does to the disk *)
  extract_archive : string → string → bool → gmap string node → result (gmap string node);
  (** whether the user answers yes to the question of [install_dialog] *)
  answers_yes : bool
}.

(** A runner class: its name and its [tarballs] attribute. *)
Record RunnerClass : Type := mkRunnerClass {
  name : string;
  tarballs : option (gmap string string)
}.

Section Install.
Context (X : Externals).

(** [download_and_extract(tarball, dest=settings.RUNNER_DIR, **opts)]; [opts]
    holds [source_url] or nothing, as in the calls of [install].  A tarball
    that is a whole version, a dict, makes [os.path.basename] and
    [os.path.join] raise [TypeError] (by [os.fspath], Python 3.6 and later). *)
Definition download_and_extract (tarball : tarball) (opts : gmap string string) : G bool :=
  let dest := RUNNER_DIR X in
  let merge_single := false in
  let source_url := from_option id (RUNNERS_URL X) (opts !! "source_url") in
  tarball_filename ←
    (if truthy (VStr source_url) then mret tarball
     else match tarball with
          | TStr s => mret (TStr (os_path_basename s))
          | TVersion _ => fail TypeError
          end);
  match tarball_filename, tarball with
  | TStr tarball_filename, TStr tarball =>
    let runner_archive := os_path_join (CACHE_DIR X) [tarball_filename] in
    _ ← act (DownloadDialog (source_url +:+ tarball) runner_archive);
    _ ← on_disk (λ d, Ok (download X (source_url +:+ tarball) runner_archive d));
    e ← path_exists runner_archive;
    if negb e then
      (_ ← act (LogError "Can't find %s, aborting install"); mret false)
    else
      _ ← act (ExtractArchive runner_archive dest merge_single);
      _ ← on_disk (extract_archive X runner_archive dest merge_single);
      _ ← os_remove runner_archive;
      mret true
  | _, _ => fail TypeError
  end.

(** [Runner.install()] *)
Definition install (self : RunnerClass) : G bool :=
  found ←
    match tarballs self with
    | Some tarballs =>
      if bool_decide (size tarballs ≠ 0) then
        _ ← act (LogDebug ("Port runner " +:+ name self +:+ " to use the REST API"));
        mret (match get_arch (machine X) with
              | Some arch => TStr <$> tarballs !! arch
              | None => None
              end, (∅ : gmap string string))
      else mret (get_runner_url (machine X) (api_response X (name self)),
                 {[ "source_url" := "" ]})
    | None => mret (get_runner_url (machine X) (api_response X (name self)),
                    {[ "source_url" := "" ]})
    end;
  let '(tarball, opts) := found in
  match tarball with
  | Some (TStr "") | None =>
    _ ← act (ErrorDialog "This runner is not available for your platform");
    mret false
  | Some tarball => download_and_extract tarball opts
  end.

(** [Runner.install_dialog()] *)
Definition install_dialog (self : RunnerClass) : G bool :=
  _ ← act QuestionDialog;
  if answers_yes X then install self else mret false.

End Install.

(** ** Properties of the generic runner *)

Lemma prefix_app (needle rest : string) : String.prefix needle (needle +:+ rest) = true.
Proof.
  induction needle as [|c needle IH]; [by destruct rest|].
  change (String c needle +:+ rest) with (String c (needle +:+ rest)).
  cbn [String.prefix]. destruct (ascii_dec c c); [apply IH|done].
Qed.

Lemma contains_app (needle before after : string) :
  contains needle (before +:+ needle +:+ after) = true.
Proof.
  induction before as [|c before IH].
  - change (EmptyString +:+ needle +:+ after) with (needle +:+ after).
    destruct (needle +:+ after) eqn:E; cbn [contains]; rewrite <- E, prefix_app; done.
  - change (String c before +:+ needle +:+ after)
      with (String c (before +:+ needle +:+ after)).
    cbn [contains]. rewrite IH. apply orb_true_r.
Qed.

(** X23: [get_arch] and [get_arch_for_api] class a machine alike, as 64-bit,
    32-bit or unknown; a machine name that holds [64] is 64-bit x86 for both,
    also when it holds [86] as well or names another processor. *)
Theorem get_arch_agree (machine : string) :
  (get_arch machine = Some "x64" ↔ get_arch_for_api machine = Some "x86_64")
  ∧ (get_arch machine = Some "i386" ↔ get_arch_for_api machine = Some "i386")
  ∧ (get_arch machine = None ↔ get_arch_for_api machine = None)
  ∧ (∀ before after,
       machine = before +:+ "64" +:+ after → get_arch machine = Some "x64").
Proof.
  unfold get_arch, get_arch_for_api. repeat split; try intros before after ->.
  all: rewrite ?contains_app; try done.
  all: destruct (contains "64" machine); [|destruct (contains "86" machine)]; done.
Qed.

Lemma get_arch_agree_witness : get_arch "aarch64" = Some "x64".
Proof.
  exact (proj2 (proj2 (proj2 (get_arch_agree "aarch64"))) "aarch" "" eq_refl).
Defined.

Lemma filter_none {A : Type} (P : A → Prop) `{∀ x, Decision (P x)} (l : list A) :
  (∀ x, x ∈ l → ¬ P x) → filter P l = [].
Proof.
  induction l as [|x l IH]; intros Hl; [done|].
  rewrite filter_cons_False by (apply Hl; by left).
  apply IH. intros y Hy. apply Hl. by right.
Qed.

(** X24: [get_runner_url] keeps the versions of the answer that are made for
    the architecture of the machine.  With exactly one such version it returns
    the URL of that version; with several it returns the first of them that is
    marked as default, whole and not as its URL, and [None] when none of them
    is; with no such version, or an empty answer, it returns [None]. *)
Theorem get_runner_url_cases (machine : string) (versions : list Version) :
  let matching :=
    filter (λ version, Some (architecture version) = get_arch_for_api machine) versions in
  get_runner_url machine None = None
  ∧ (matching = [] → get_runner_url machine (Some versions) = None)
  ∧ (∀ version, matching = [version] →
       get_runner_url machine (Some versions) = Some (TStr (url version)))
  ∧ (∀ before version after,
       1 < length matching →
       matching = before ++ version :: after →
       (∀ v, v ∈ before → default v ≠ VBool true) →
       default version = VBool true →
       get_runner_url machine (Some versions) = Some (TVersion version))
  ∧ (1 < length matching →
     (∀ v, v ∈ matching → default v ≠ VBool true) →
     get_runner_url machine (Some versions) = None).
Proof.
  intros matching. unfold get_runner_url. fold matching. cbv zeta.
  split; [done|]. split; [by intros ->|]. split; [by intros version ->|]. split.
  - intros before version after Hlen Hsplit Hbefore Hdef.
    rewrite bool_decide_false by lia. rewrite bool_decide_true by done.
    rewrite Hsplit, filter_app, filter_cons_True by done.
    by rewrite (filter_none _ before Hbefore).
  - intros Hlen Hnone.
    rewrite bool_decide_false by lia. rewrite bool_decide_true by done.
    by rewrite (filter_none _ matching Hnone).
Qed.

Lemma get_runner_url_cases_witness :
  get_runner_url "x86_64"
    (Some [mkVersion "i386" (VBool true) "https://lutris.net/wine32.tar.gz";
           mkVersion "x86_64" (VBool false) "https://lutris.net/old64.tar.gz";
           mkVersion "x86_64" (VBool true) "https://lutris.net/new64.tar.gz"])
  = Some (TVersion (mkVersion "x86_64" (VBool true) "https://lutris.net/new64.tar.gz")).
Proof.
  apply (proj1 (proj2 (proj2 (proj2 (get_runner_url_cases "x86_64" _))))
           [mkVersion "x86_64" (VBool false) "https://lutris.net/old64.tar.gz"]
           (mkVersion "x86_64" (VBool true) "https://lutris.net/new64.tar.gz") []).
  - vm_compute. lia.
  - reflexivity.
  - intros v Hv. apply list_elem_of_singleton in Hv as ->. done.
  - reflexivity.
Defined.

Lemma bind_act {A : Type} (a : action) (k : () → G A) (s : State) :
  (act a ≫= k) s = k () (mkState (disk s) (actions s ++ [a])).
Proof. done. Qed.

Section InstallFacts.
Context (X : Externals).

(** The archive [download_and_extract] works on, and the URL it downloads. *)
Definition source_url_of (opts : gmap string string) : string :=
  from_option id (RUNNERS_URL X) (opts !! "source_url").

Definition runner_archive (t : string) (opts : gmap string string) : string :=
  os_path_join (CACHE_DIR X)
    [if truthy (VStr (source_url_of opts)) then t else os_path_basename t].

Lemma download_and_extract_unfold (t : string) (opts : gmap string string) (s : State) :
  download_and_extract X (TStr t) opts s
  = let archive := runner_archive t opts in
    let url := source_url_of opts +:+ t in
    let s1 := mkState (download X url archive (disk s))
                (actions s ++ [DownloadDialog url archive]) in
    match disk s1 !! archive with
    | None =>
      (Ok false,
       mkState (disk s1) (actions s1 ++ [LogError "Can't find %s, aborting install"]))
    | Some n =>
      match extract_archive X archive (RUNNER_DIR X) false (disk s1) with
      | Raise e =>
        (Raise e,
         mkState (disk s1) (actions s1 ++ [ExtractArchive archive (RUNNER_DIR X) false]))
      | Ok d =>
        let acts := actions s1 ++ [ExtractArchive archive (RUNNER_DIR X) false;
                                   Remove archive] in
        match d !! archive with
        | Some (File _) => (Ok true, mkState (delete archive d) acts)
        | Some Dir => (Raise IsADirectoryError, mkState d acts)
        | None => (Raise FileNotFoundError, mkState d acts)
        end
      end
    end.
Proof.
  unfold download_and_extract, runner_archive, source_url_of, os_remove. cbv zeta.
  destruct (truthy (VStr (from_option id (RUNNERS_URL X) (opts !! "source_url")))).
  all: unfold mbind, G_bind, mret, G_ret, act, on_disk, path_exists;
    cbn [disk actions negb].
  all: repeat (case_match; cbn [disk actions negb] in *; simplify_eq; try done).
  all: by rewrite <- ?app_assoc.
Qed.

Lemma download_and_extract_true (t : string) (opts : gmap string string) (s : State) :
  (download_and_extract X (TStr t) opts s).1 = Ok true →
  actions (download_and_extract X (TStr t) opts s).2
  = actions s ++ [DownloadDialog (source_url_of opts +:+ t) (runner_archive t opts);
                  ExtractArchive (runner_archive t opts) (RUNNER_DIR X) false;
                  Remove (runner_archive t opts)]
  ∧ disk (download_and_extract X (TStr t) opts s).2 !! runner_archive t opts = None.
Proof.
  rewrite download_and_extract_unfold. cbv zeta. cbn [disk actions].
  destruct (download X _ _ (disk s) !! runner_archive t opts); [|done].
  destruct (extract_archive X _ _ _ _) as [d|e]; [|done].
  destruct (d !! runner_archive t opts) as [[data|]|]; try done.
  intros _. cbn [fst snd disk actions]. split; [by rewrite <- app_assoc|].
  apply lookup_delete_eq.
Qed.

(** X25: when [download_and_extract] returns [True], the archive was
    downloaded to the cache directory, extracted to the runner directory and
    removed, in this order and nothing else, and it is no longer on disk.
    The archive is the tarball name joined to the cache directory, or its
    base name when the source URL is empty. *)
Theorem download_and_extract_done (t : string) (opts : gmap string string) (s : State) :
  (download_and_extract X (TStr t) opts s).1 = Ok true →
  actions (download_and_extract X (TStr t) opts s).2
  = actions s ++ [DownloadDialog (source_url_of opts +:+ t) (runner_archive t opts);
                  ExtractArchive (runner_archive t opts) (RUNNER_DIR X) false;
                  Remove (runner_archive t opts)]
  ∧ disk (download_and_extract X (TStr t) opts s).2 !! runner_archive t opts = None
  ∧ runner_archive t opts
    = os_path_join (CACHE_DIR X)
        [if String.eqb (source_url_of opts) "" then os_path_basename t else t].
Proof.
  intros H. destruct (download_and_extract_true t opts s H) as [Ha Hd].
  split; [done|]. split; [done|]. unfold runner_archive, truthy.
  by destruct (String.eqb (source_url_of opts) "").
Qed.

(** X26: when the download leaves no file at the place of the archive,
    [download_and_extract] logs the error and returns [False]; nothing is
    extracted or removed. *)
Theorem download_and_extract_failed (t : string) (opts : gmap string string) (s : State) :
  download X (source_url_of opts +:+ t) (runner_archive t opts) (disk s)
    !! runner_archive t opts = None →
  download_and_extract X (TStr t) opts s
  = (Ok false,
     mkState (download X (source_url_of opts +:+ t) (runner_archive t opts) (disk s))
       (actions s ++ [DownloadDialog (source_url_of opts +:+ t) (runner_archive t opts);
                      LogError "Can't find %s, aborting install"])).
Proof.
  intros H. rewrite download_and_extract_unfold. cbv zeta. cbn [disk actions].
  rewrite H. by rewrite <- app_assoc.
Qed.

(** X27: for a runner without [tarballs], when the API lists several versions
    for the architecture of the machine and marks one as default,
    [install] raises [TypeError] before anything is downloaded:
    [get_runner_url] hands the whole version, not its URL, to
    [download_and_extract]. *)
Theorem install_several_versions (self : RunnerClass) (versions : list Version)
    (s : State) :
  tarballs self = None →
  api_response X (name self) = Some versions →
  1 < length (filter (λ version, Some (architecture version)
                                  = get_arch_for_api (machine X)) versions) →
  (∃ version, version ∈ versions
              ∧ Some (architecture version) = get_arch_for_api (machine X)
              ∧ default version = VBool true) →
  install X self s = (Raise TypeError, s).
Proof.
  intros Htar Hresp Hlen (v & Hin & Harch & Hdef).
  unfold install. rewrite Htar, Hresp. unfold get_runner_url. cbv zeta.
  set (matching := filter _ versions) in *.
  rewrite bool_decide_false by lia. rewrite bool_decide_true by done.
  assert (Hv : v ∈ filter (λ version, default version = VBool true) matching).
  { apply list_elem_of_filter. split; [done|]. by apply list_elem_of_filter. }
  destruct (filter (λ version, default version = VBool true) matching) as [|v0 l];
    [by apply elem_of_nil in Hv|].
  unfold mbind, G_bind, mret, G_ret. cbn.
  unfold download_and_extract. cbv zeta. rewrite lookup_singleton_eq. done.
Qed.

(** The second half of [install]: what is done with the tarball found. *)
Definition install_found (found : option tarball) (opts : gmap string string) : G bool :=
  match found with
  | Some (TStr "") | None =>
    _ ← act (ErrorDialog "This runner is not available for your platform");
    mret false
  | Some tarball => download_and_extract X tarball opts
  end.

Lemma install_unfold (self : RunnerClass) (s : State) :
  install X self s
  = match tarballs self with
    | Some tarballs =>
      if bool_decide (size tarballs ≠ 0) then
        install_found
          (match get_arch (machine X) with
           | Some arch => TStr <$> tarballs !! arch
           | None => None
           end) ∅
          (mkState (disk s)
             (actions s
              ++ [LogDebug ("Port runner " +:+ name self +:+ " to use the REST API")]))
      else
        install_found (get_runner_url (machine X) (api_response X (name self)))
          {[ "source_url" := "" ]} s
    | None =>
      install_found (get_runner_url (machine X) (api_response X (name self)))
        {[ "source_url" := "" ]} s
    end.
Proof.
  unfold install, install_found.
  destruct (tarballs self) as [tb|]; [case_bool_decide|]; done.
Qed.

Lemma install_found_done (found : option tarball) (opts : gmap string string)
    (s : State) :
  (install_found found opts s).1 = Ok true →
  ∃ url archive,
    actions (install_found found opts s).2
    = actions s ++ [DownloadDialog url archive;
                    ExtractArchive archive (RUNNER_DIR X) false;
                    Remove archive]
    ∧ disk (install_found found opts s).2 !! archive = None.
Proof.
  unfold install_found. destruct found as [[t|v]|]; try done.
  - destruct t as [|c t]; [done|]. intros H.
    destruct (download_and_extract_true (String c t) opts s H) as [Ha Hd]. eauto.
  - unfold download_and_extract. cbv zeta.
    by destruct (truthy (VStr (from_option id (RUNNERS_URL X) (opts !! "source_url")))).
Qed.

Lemma download_and_extract_actions_grow (t : tarball) (opts : gmap string string)
    (s : State) :
  ∃ rest, actions (download_and_extract X t opts s).2 = actions s ++ rest.
Proof.
  destruct t as [t|v].
  - rewrite download_and_extract_unfold. cbv zeta. cbn [disk actions].
    destruct (download X _ _ (disk s) !! runner_archive t opts).
    + destruct (extract_archive X _ _ _ _) as [d|e].
      * destruct (d !! runner_archive t opts) as [[data|]|];
          cbn [snd actions]; rewrite <- app_assoc; eauto.
      * cbn [snd actions]. rewrite <- app_assoc; eauto.
    + cbn [snd actions]. rewrite <- app_assoc; eauto.
  - exists []. rewrite app_nil_r. unfold download_and_extract. cbv zeta.
    by destruct (truthy (VStr (from_option id (RUNNERS_URL X) (opts !! "source_url")))).
Qed.

Lemma install_found_actions_grow (found : option tarball) (opts : gmap string string)
    (s : State) :
  ∃ rest, actions (install_found found opts s).2 = actions s ++ rest.
Proof.
  unfold install_found.
  destruct found as [[[|c t]|v]|]; try apply download_and_extract_actions_grow.
  all: rewrite bind_act; cbn; eauto.
Qed.

Lemma install_actions_grow (self : RunnerClass) (s : State) :
  ∃ rest, actions (install X self s).2 = actions s ++ rest.
Proof.
  rewrite install_unfold.
  destruct (tarballs self) as [tb|]; [case_bool_decide|];
    try apply install_found_actions_grow.
  destruct (install_found_actions_grow
              (match get_arch (machine X) with
               | Some arch => TStr <$> tb !! arch
               | None => None
               end) ∅
              (mkState (disk s)
                 (actions s
                  ++ [LogDebug ("Port runner " +:+ name self +:+ " to use the REST API")])))
    as [rest Hrest].
  rewrite Hrest. cbn [actions]. rewrite <- app_assoc. eauto.
Qed.

Lemma install_true (self : RunnerClass) (s : State) :
  (install X self s).1 = Ok true →
  ∃ before url archive,
    actions (install X self s).2
    = actions s ++ before ++ [DownloadDialog url archive;
                              ExtractArchive archive (RUNNER_DIR X) false;
                              Remove archive]
    ∧ disk (install X self s).2 !! archive = None.
Proof.
  rewrite install_unfold.
  destruct (tarballs self) as [tb|]; [case_bool_decide|].
  - intros Ht. apply install_found_done in Ht as (url & archive & Ha & Hd).
    exists [LogDebug ("Port runner " +:+ name self +:+ " to use the REST API")],
      url, archive.
    split; [|done]. rewrite Ha. cbn [actions]. by rewrite <- app_assoc.
  - intros Ht. apply install_found_done in Ht as (url & archive & Ha & Hd).
    exists [], url, archive. by split.
  - intros Ht. apply install_found_done in Ht as (url & archive & Ha & Hd).
    exists [], url, archive. by split.
Qed.

(** X28: [install] returns [True] only after a download, an extraction and the
    removal of the archive, which is then no longer on disk; it shows the
    error dialog instead, and returns [False] without any download, when no
    tarball is found for the platform. *)
Theorem install_done (self : RunnerClass) (s : State) :
  ((install X self s).1 = Ok true →
   ∃ before url archive,
     actions (install X self s).2
     = actions s ++ before ++ [DownloadDialog url archive;
                               ExtractArchive archive (RUNNER_DIR X) false;
                               Remove archive]
     ∧ disk (install X self s).2 !! archive = None)
  ∧ (tarballs self = None →
     get_runner_url (machine X) (api_response X (name self)) = None →
     install X self s
     = (Ok false,
        mkState (disk s)
          (actions s ++ [ErrorDialog "This runner is not available for your platform"]))).
Proof.
  split; [apply install_true|].
  rewrite install_unfold. intros -> ->. done.
Qed.

(** X29: [install_dialog] asks before anything else; when the user does not
    answer yes it returns [False] and nothing is installed, and it returns
    [True] only when the user answered yes and the archive was downloaded,
    extracted and removed after the question. *)
Theorem install_dialog_asks_first (self : RunnerClass) (s : State) :
  (∃ rest, actions (install_dialog X self s).2 = actions s ++ QuestionDialog :: rest)
  ∧ (answers_yes X = false →
     install_dialog X self s
     = (Ok false, mkState (disk s) (actions s ++ [QuestionDialog])))
  ∧ ((install_dialog X self s).1 = Ok true →
     answers_yes X = true
     ∧ ∃ before url archive,
         actions (install_dialog X self s).2
         = actions s ++ QuestionDialog :: before
                     ++ [DownloadDialog url archive;
                         ExtractArchive archive (RUNNER_DIR X) false;
                         Remove archive]
         ∧ disk (install_dialog X self s).2 !! archive = None).
Proof.
  unfold install_dialog. rewrite bind_act.
  set (s1 := mkState (disk s) (actions s ++ [QuestionDialog])).
  split; [|split].
  - destruct (answers_yes X); [|by exists []].
    destruct (install_actions_grow self s1) as [rest Hrest].
    exists rest. rewrite Hrest. cbn [actions s1]. by rewrite <- app_assoc.
  - by intros ->.
  - destruct (answers_yes X); [|done]. intros Ht. split; [done|].
    apply install_true in Ht as (before & url & archive & Ha & Hd).
    exists before, url, archive. split; [|done].
    rewrite Ha. cbn [actions s1]. by rewrite <- app_assoc.
Qed.

End InstallFacts.

(** A site that serves one version for each architecture, one that is
    offline, and one that serves two versions for the same architecture. *)
Definition example_site : Externals := {|
  machine := "x86_64";
  RUNNERS_URL := "https://lutris.net/files/runners/";
  CACHE_DIR := "/cache";
  RUNNER_DIR := "/runners";
  api_response := λ _,
    Some [mkVersion "x86_64" (VBool false) "https://lutris.net/a64.tar.gz";
          mkVersion "i386" (VBool true) "https://lutris.net/a32.tar.gz"];
  download := λ _ dest d, <[dest := File []]> d;
  extract_archive := λ _ dest _ d, Ok (<[dest := Dir]> d);
  answers_yes := true
|}.

Definition offline_site : Externals := {|
  machine := "x86_64";
  RUNNERS_URL := "https://lutris.net/files/runners/";
  CACHE_DIR := "/cache";
  RUNNER_DIR := "/runners";
  api_response := λ _, None;
  download := λ _ _ d, d;
  extract_archive := λ _ dest _ d, Ok (<[dest := Dir]> d);
  answers_yes := true
|}.

Definition two_versions : list Version :=
  [mkVersion "x86_64" (VBool false) "https://lutris.net/old64.tar.gz";
   mkVersion "x86_64" (VBool true) "https://lutris.net/new64.tar.gz"].

Definition two_versions_site : Externals := {|
  machine := "x86_64";
  RUNNERS_URL := "https://lutris.net/files/runners/";
  CACHE_DIR := "/cache";
  RUNNER_DIR := "/runners";
  api_response := λ _, Some two_versions;
  download := λ _ dest d, <[dest := File []]> d;
  extract_archive := λ _ dest _ d, Ok (<[dest := Dir]> d);
  answers_yes := true
|}.

Lemma download_and_extract_done_witness :
  actions (download_and_extract example_site (TStr "https://lutris.net/a64.tar.gz")
             {[ "source_url" := "" ]} (mkState ∅ [])).2
  = [DownloadDialog "https://lutris.net/a64.tar.gz" "/cache/a64.tar.gz";
     ExtractArchive "/cache/a64.tar.gz" "/runners" false;
     Remove "/cache/a64.tar.gz"].
Proof.
  destruct (download_and_extract_done example_site "https://lutris.net/a64.tar.gz"
              {[ "source_url" := "" ]} (mkState ∅ [])) as (H & _);
    [vm_compute; reflexivity|].
  exact H.
Defined.

Lemma download_and_extract_failed_witness :
  download_and_extract offline_site (TStr "wine.tar.gz") ∅ (mkState ∅ [])
  = (Ok false,
     mkState ∅
       [DownloadDialog "https://lutris.net/files/runners/wine.tar.gz" "/cache/wine.tar.gz";
        LogError "Can't find %s, aborting install"]).
Proof.
  etrans;
    [apply (download_and_extract_failed offline_site "wine.tar.gz" ∅ (mkState ∅ []));
     vm_compute; reflexivity|].
  vm_compute. reflexivity.
Defined.

Lemma install_several_versions_witness :
  install two_versions_site (mkRunnerClass "wine" None) (mkState ∅ [])
  = (Raise TypeError, mkState ∅ []).
Proof.
  apply (install_several_versions two_versions_site (mkRunnerClass "wine" None)
           two_versions (mkState ∅ [])).
  - reflexivity.
  - reflexivity.
  - vm_compute. lia.
  - exists (mkVersion "x86_64" (VBool true) "https://lutris.net/new64.tar.gz").
    split; [|split; reflexivity]. right. left.
Defined.

End Generic.
